(** * Application backup worker (package [exector]): a shallow embedding

    The Go worker [BackupAPPNew] reads a snapshot of a group of services,
    copies or pushes the build artifacts of each service, archives the
    persistent data, exports the plugin images, zips the working directory
    and records the final status.

    Everything the worker does to the outside (file system, registry, SFTP
    endpoint, docker daemon, status store, loggers) is a call to a
    collaborator.  The embedding keeps the worker's own control flow as
    Rocq functions in a small state monad; every external call is appended,
    with its answer, to a chronological trace, and the answer is chosen by
    an environment that sees the whole history of earlier calls. *)

From Stdlib Require Import String Ascii List ZArith Bool Lia DecimalString.
Import ListNotations.
Local Open Scope string_scope.
Local Open Scope list_scope.
Local Open Scope Z_scope.

(** Concatenation of strings, for the arguments of [fmt.Sprintf]. *)
Infix "+++" := String.append (right associativity, at level 60).

(** Go's [==] on strings. *)
Infix "==" := String.eqb (no associativity, at level 70).

Set Implicit Arguments.

(** ** Go primitives used by the worker *)

(** [len(s)] *)
Definition len (s : string) : Z := Z.of_nat (String.length s).

(** [strings.HasSuffix(s, suffix)] *)
Definition strings_HasSuffix (s suffix : string) : bool :=
  (String.length suffix <=? String.length s)%nat &&
  String.eqb
    (substring (String.length s - String.length suffix) (String.length suffix) s)
    suffix.

(** [s[:hi]]; Go panics when [hi] is outside [0 .. len(s)]. *)
Definition slice_to (s : string) (hi : Z) : option string :=
  if (0 <=? hi) && (hi <=? len s)
  then Some (substring 0 (Z.to_nat hi) s)
  else None.

(** [strings.Replace(s, "/", "", -1)]: every separator is dropped. *)
Fixpoint strings_Replace_slash (s : string) : string :=
  match s with
  | EmptyString => EmptyString
  | String c rest =>
      if Ascii.eqb c "/"%char
      then strings_Replace_slash rest
      else String c (strings_Replace_slash rest)
  end.

(** [%d] of [fmt.Sprintf] *)
Definition fmt_d (n : Z) : string := NilZero.string_of_int (Z.to_int n).

(** An [int64] value kept in [Z]: the result of an addition is brought back
    into [-2^63 .. 2^63 - 1]. *)
Definition wrap64 (z : Z) : Z := (z + 2 ^ 63) mod 2 ^ 64 - 2 ^ 63.

(** A Go [error] value: its message and whether [os.IsNotExist] holds of it. *)
Record error : Type := mkError {
  Error : string;
  os_IsNotExist : bool
}.

(** [fmt.Errorf(msg)] *)
Definition fmt_Errorf (msg : string) : error := mkError msg false.

(** ** Data model *)

Definition OldMetadata : string := "OldMetadata".
Definition NewMetadata : string := "NewMetadata".

(** The fields of [dbmodel.VersionInfo] the worker reads or writes. *)
Record VersionInfo : Type := mkVersionInfo {
  BuildVersion : string;
  DeliveredType : string;
  DeliveredPath : string;
  FinalStatus : string
}.

Definition set_FinalStatus (v : VersionInfo) (s : string) : VersionInfo :=
  mkVersionInfo (BuildVersion v) (DeliveredType v) (DeliveredPath v) s.

(** The fields of [dbmodel.TenantServices] the worker reads. *)
Record TenantServices : Type := mkTenantServices {
  TenantID : string;
  svc_ServiceID : string;
  ServiceAlias : string;
  ServiceName : string
}.

(** The fields of [dbmodel.TenantServiceVolume] the worker reads. *)
Record TenantServiceVolume : Type := mkTenantServiceVolume {
  VolumeName : string;
  HostPath : string
}.

(** The fields of [dbmodel.TenantPluginBuildVersion] the worker reads. *)
Record TenantPluginBuildVersion : Type := mkTenantPluginBuildVersion {
  PluginID : string;
  DeployVersion : string;
  BuildLocalImage : string
}.

(** [RegionServiceSnapshot]; the relations that the backup only passes
    through (probes, ports, environment, labels, ...) are left out. *)
Record RegionServiceSnapshot : Type := mkRegionServiceSnapshot {
  ServiceID : string;
  Service : TenantServices;
  ServiceVolume : list TenantServiceVolume;
  Versions : list VersionInfo
}.

Definition set_Versions (app : RegionServiceSnapshot) (vs : list VersionInfo)
  : RegionServiceSnapshot :=
  mkRegionServiceSnapshot (ServiceID app) (Service app) (ServiceVolume app) vs.

(** [AppSnapshot]; the plugin list itself is never read by the worker. *)
Record AppSnapshot : Type := mkAppSnapshot {
  Services : list RegionServiceSnapshot;
  PluginBuildVersions : list TenantPluginBuildVersion
}.

Record SlugInfoT : Type := mkSlugInfo {
  slug_Namespace : string;
  FTPHost : string;
  FTPPort : string;
  FTPUser : string;
  FTPPassword : string
}.

Record ImageInfoT : Type := mkImageInfo {
  HubURL : string;
  HubUser : string;
  HubPassword : string;
  image_Namespace : string;
  IsTrust : bool
}.

(** [BackupAPPNew] without its two handles (logger, docker client), which
    are only passed on to collaborators. *)
Record BackupAPPNew : Type := mkBackupAPPNew {
  GroupID : string;
  ServiceIDs : list string;
  Mode : string;
  Version : string;
  EventID : string;
  SlugInfo : SlugInfoT;
  ImageInfo : ImageInfoT;
  SourceDir : string;
  SourceType : string;
  BackupID : string;
  BackupSize : Z
}.

Definition set_SourceDir (b : BackupAPPNew) (d : string) : BackupAPPNew :=
  mkBackupAPPNew (GroupID b) (ServiceIDs b) (Mode b) (Version b) (EventID b)
    (SlugInfo b) (ImageInfo b) d (SourceType b) (BackupID b) (BackupSize b).

Definition set_SourceType (b : BackupAPPNew) (t : string) : BackupAPPNew :=
  mkBackupAPPNew (GroupID b) (ServiceIDs b) (Mode b) (Version b) (EventID b)
    (SlugInfo b) (ImageInfo b) (SourceDir b) t (BackupID b) (BackupSize b).

Definition set_BackupSize (b : BackupAPPNew) (n : Z) : BackupAPPNew :=
  mkBackupAPPNew (GroupID b) (ServiceIDs b) (Mode b) (Version b) (EventID b)
    (SlugInfo b) (ImageInfo b) (SourceDir b) (SourceType b) (BackupID b) n.

(** ** Values handed back by collaborators *)

(** [os.FileInfo], as far as [IsDir] *)
Record FileInfo : Type := mkFileInfo { IsDir : bool }.

(** [types.ImageInspect], as far as [Size] *)
Record ImageInspect : Type := mkImageInspect { Size : Z }.

(** The registry client built by [registry.NewInsecure] *)
Record Registry : Type := mkRegistry { URL : string }.

(** The client built by [sources.NewSFTPClient] *)
Record SFTPClient : Type := mkSFTPClient {
  sftp_User : string;
  sftp_Password : string;
  sftp_Host : string;
  sftp_Port : string
}.

(** The result of [sources.ImageNameHandle] *)
Record ImageName : Type := mkImageName {
  Host : string;
  Name : string;
  Tag : string
}.

(** The persisted backup record, as far as [updateBackupStatu] writes it. *)
Record AppBackup : Type := mkAppBackup {
  ab_BackupID : string;
  Status : string;
  ab_SourceDir : string;
  ab_SourceType : string;
  BuckupSize : Z
}.

(** ** External calls *)

(** One constructor per collaborator call, with the arguments the worker
    passes and the answer it got. *)
Inductive Event : Type :=
| EvReadFile (path : string) (r : error + string)
| EvStat (path : string) (r : error + FileInfo)
| EvNewInsecure (url user password : string) (r : error + Registry)
| EvManifest (reg : Registry) (name tag : string) (r : option error)
| EvNewSFTPClient (user password host port : string) (r : error + SFTPClient)
| EvPushFile (c : SFTPClient) (src dst : string) (r : option error)
| EvClose (c : SFTPClient)
| EvGetFileSize (path : string) (r : Z)
| EvCheckAndCreateDir (dir : string)
| EvCopyFileWithProgress (src dst : string) (r : option error)
| EvImagePull (image user password : string) (times : Z) (r : error + ImageInspect)
| EvImageTag (src dst : string) (times : Z) (r : option error)
| EvTrustedImagePush (image user password : string) (times : Z) (r : option error)
| EvImagePush (image user password : string) (times : Z) (r : option error)
| EvImageSave (image dst : string) (r : option error)
| EvDirIsEmpty (path : string) (r : bool)
| EvZip (src dst : string) (r : option error)
| EvRemoveAll (path : string)
| EvRemove (path : string)
| EvGetAppBackup (id : string) (r : error + AppBackup)
| EvUpdateModel (m : AppBackup) (r : option error)
| EvLoggerInfo (msg step status : string)
| EvLoggerError (msg step status : string)
| EvLogrusErrorf (msg : string)
| EvLogrusInfof (msg : string).

Definition History : Type := list Event.

(** The collaborators that answer: each sees the calls made so far. *)
Record Env : Type := mkEnv {
  ioutil_ReadFile : History -> string -> error + string;
  os_Stat : History -> string -> error + FileInfo;
  registry_NewInsecure : History -> string -> string -> string -> error + Registry;
  reg_Manifest : History -> Registry -> string -> string -> option error;
  sources_NewSFTPClient :
    History -> string -> string -> string -> string -> error + SFTPClient;
  sftp_PushFile : History -> SFTPClient -> string -> string -> option error;
  util_GetFileSize : History -> string -> Z;
  sources_CopyFileWithProgress : History -> string -> string -> option error;
  sources_ImagePull :
    History -> string -> string -> string -> Z -> error + ImageInspect;
  sources_ImageTag : History -> string -> string -> Z -> option error;
  sources_TrustedImagePush :
    History -> string -> string -> string -> Z -> option error;
  sources_ImagePush : History -> string -> string -> string -> Z -> option error;
  sources_ImageSave : History -> string -> string -> option error;
  util_DirIsEmpty : History -> string -> bool;
  util_Zip : History -> string -> string -> option error;
  dao_GetAppBackup : History -> string -> error + AppBackup;
  dao_UpdateModel : History -> AppBackup -> option error
}.

(** Pure helpers of other packages, and the process environment. *)
Record Lib : Type := mkLib {
  unmarshal_AppSnapshot : string -> error + AppSnapshot;
  unmarshal_Services : string -> error + list RegionServiceSnapshot;
  filepath_Dir : string -> string;
  path_Join : list string -> string;
  sources_ImageNameHandle : string -> ImageName;
  CreateShareImage : VersionInfo -> string -> string -> string -> error + string;
  util_Translation : string -> string;
  os_Getenv : string -> string
}.

(** ** The monad of the worker *)

Record State : Type := mkState {
  task : BackupAPPNew;
  trace : History
}.

Inductive Outcome (A : Type) : Type :=
| Done (a : A)
| Panic (msg : string).

Arguments Done {A} a.
Arguments Panic {A} msg.

Definition M (A : Type) : Type := State -> Outcome A * State.

Definition ret {A} (a : A) : M A := fun st => (Done a, st).

Definition bind {A B} (m : M A) (k : A -> M B) : M B :=
  fun st =>
    match m st with
    | (Done a, st') => k a st'
    | (Panic msg, st') => (Panic msg, st')
    end.

Declare Scope go_scope.
Delimit Scope go_scope with go.
Notation "x <- c ;; k" := (bind c (fun x => k))
  (at level 100, c at next level, right associativity) : go_scope.
Notation "' pat <- c ;; k" := (bind c (fun x => match x with pat => k end))
  (at level 100, pat pattern, c at next level, right associativity) : go_scope.
Notation "c ;; k" := (bind c (fun _ => k))
  (at level 100, right associativity) : go_scope.
Local Open Scope go_scope.

Definition panic {A} (msg : string) : M A := fun st => (Panic msg, st).

(** A call that gets an answer from the environment. *)
Definition call {R} (oracle : History -> R) (ev : R -> Event) : M R :=
  fun st =>
    let r := oracle (trace st) in
    (Done r, mkState (task st) (trace st ++ [ev r])).

(** A call with no answer the worker looks at. *)
Definition emit (ev : Event) : M unit :=
  fun st => (Done tt, mkState (task st) (trace st ++ [ev])).

Definition get_b : M BackupAPPNew := fun st => (Done (task st), st).

Definition modify_b (f : BackupAPPNew -> BackupAPPNew) : M unit :=
  fun st => (Done tt, mkState (f (task st)) (trace st)).

(** [defer d] registered just before [body]: [d] runs when the function
    leaves, also when it leaves by a panic. *)
Definition defer {A} (d : M unit) (body : M A) : M A :=
  fun st =>
    match body st with
    | (Done a, st') =>
        match d st' with
        | (Done _, st'') => (Done a, st'')
        | (Panic msg, st'') => (Panic msg, st'')
        end
    | (Panic msg, st') =>
        match d st' with
        | (_, st'') => (Panic msg, st'')
        end
    end.

(** Default of the package variable [maxBackupVersionSize]: the greatest
    number of versions backed up for one service. *)
Definition maxBackupVersionSize_default : Z := 3.

Definition err_of {A} (r : error + A) : option error :=
  match r with
  | inl err => Some err
  | inr _ => None
  end.

(** ** The worker *)

Section Exector.

Variable lib : Lib.
Variable env : Env.

(** The package variable [maxBackupVersionSize], which other code of the
    package may reassign. *)
Variable maxBackupVersionSize : Z.

(** *** Collaborator calls *)

Definition ReadFile (path : string) : M (error + string) :=
  call (fun h => ioutil_ReadFile env h path) (EvReadFile path).
Definition Stat (path : string) : M (error + FileInfo) :=
  call (fun h => os_Stat env h path) (EvStat path).
Definition NewInsecure (url user password : string) : M (error + Registry) :=
  call (fun h => registry_NewInsecure env h url user password)
       (EvNewInsecure url user password).
Definition Manifest (reg : Registry) (name tag : string) : M (option error) :=
  call (fun h => reg_Manifest env h reg name tag) (EvManifest reg name tag).
Definition NewSFTPClient (user password host port : string)
  : M (error + SFTPClient) :=
  call (fun h => sources_NewSFTPClient env h user password host port)
       (EvNewSFTPClient user password host port).
Definition PushFile (c : SFTPClient) (src dst : string) : M (option error) :=
  call (fun h => sftp_PushFile env h c src dst) (EvPushFile c src dst).
Definition Close (c : SFTPClient) : M unit := emit (EvClose c).
Definition GetFileSize (path : string) : M Z :=
  call (fun h => util_GetFileSize env h path) (EvGetFileSize path).
Definition CheckAndCreateDir (dir : string) : M unit :=
  emit (EvCheckAndCreateDir dir).
Definition CopyFileWithProgress (src dst : string) : M (option error) :=
  call (fun h => sources_CopyFileWithProgress env h src dst)
       (EvCopyFileWithProgress src dst).
Definition ImagePull (image user password : string) (times : Z)
  : M (error + ImageInspect) :=
  call (fun h => sources_ImagePull env h image user password times)
       (EvImagePull image user password times).
Definition ImageTag (src dst : string) (times : Z) : M (option error) :=
  call (fun h => sources_ImageTag env h src dst times) (EvImageTag src dst times).
Definition TrustedImagePush (image user password : string) (times : Z)
  : M (option error) :=
  call (fun h => sources_TrustedImagePush env h image user password times)
       (EvTrustedImagePush image user password times).
Definition ImagePush (image user password : string) (times : Z)
  : M (option error) :=
  call (fun h => sources_ImagePush env h image user password times)
       (EvImagePush image user password times).
Definition ImageSave (image dst : string) : M (option error) :=
  call (fun h => sources_ImageSave env h image dst) (EvImageSave image dst).
Definition DirIsEmpty (path : string) : M bool :=
  call (fun h => util_DirIsEmpty env h path) (EvDirIsEmpty path).
Definition Zip (src dst : string) : M (option error) :=
  call (fun h => util_Zip env h src dst) (EvZip src dst).
Definition RemoveAll (path : string) : M unit := emit (EvRemoveAll path).
Definition Remove (path : string) : M unit := emit (EvRemove path).
Definition GetAppBackup (id : string) : M (error + AppBackup) :=
  call (fun h => dao_GetAppBackup env h id) (EvGetAppBackup id).
Definition UpdateModel (m : AppBackup) : M (option error) :=
  call (fun h => dao_UpdateModel env h m) (EvUpdateModel m).

(** [b.Logger.Info(msg, map{"step": step, "status": status})] *)
Definition Logger_Info (msg step status : string) : M unit :=
  emit (EvLoggerInfo msg step status).
Definition Logger_Error (msg step status : string) : M unit :=
  emit (EvLoggerError msg step status).
Definition logrus_Errorf (msg : string) : M unit := emit (EvLogrusErrorf msg).
Definition logrus_Infof (msg : string) : M unit := emit (EvLogrusInfof msg).

(** *** [judgeMetadataVersion] (lines 207-219) *)

Definition judgeMetadataVersion (metadata : string) : string * option error :=
  match err_of (unmarshal_AppSnapshot lib metadata) with
  | None => (NewMetadata, None)
  | Some _ =>
      match err_of (unmarshal_Services lib metadata) with
      | None => ("", err_of (unmarshal_Services lib metadata))
      | Some _ => (OldMetadata, None)
      end
  end.

(** *** [checkVersionExist] (lines 306-334) *)

Definition checkVersionExist (version : VersionInfo) : M (bool * option error) :=
  if DeliveredType version == "image" then
    let imageInfo := sources_ImageNameHandle lib (DeliveredPath version) in
    r <- NewInsecure (Host imageInfo) "" "" ;;
    match r with
    | inl err =>
        logrus_Errorf ("new registry client error " +++ Error err) ;;
        ret (false, Some err)
    | inr reg =>
        r <- Manifest reg (Name imageInfo) (Tag imageInfo) ;;
        match r with
        | Some err =>
            logrus_Errorf ("get image " +++ DeliveredPath version +++
                           " manifest info failure, it could be not exist") ;;
            ret (false, Some err)
        | None => ret (true, None)
        end
    end
  else if DeliveredType version == "slug" then
    r <- Stat (DeliveredPath version) ;;
    match r with
    | inl err =>
        if os_IsNotExist err then ret (false, None)
        else ret (false, Some err)
    | inr islugfile =>
        if IsDir islugfile then ret (false, None)
        else ret (true, None)
    end
  else ret (false, Some (fmt_Errorf "delivered type is invalid")).

(** *** [uploadSlug] (lines 335-361) *)

Definition uploadSlug (app : RegionServiceSnapshot) (version : VersionInfo)
  : M (option error) :=
  b <- get_b ;;
  if (Mode b == "full-online") && negb (FTPHost (SlugInfo b) == "")
     && negb (FTPPort (SlugInfo b) == "")
  then
    r <- NewSFTPClient (FTPUser (SlugInfo b)) (FTPPassword (SlugInfo b))
                       (FTPHost (SlugInfo b)) (FTPPort (SlugInfo b)) ;;
    match r with
    | inl err =>
        Logger_Error (util_Translation lib "create ftp client error")
                     "backup_builder" "failure" ;;
        ret (Some err)
    | inr sFTPClient =>
        defer (Close sFTPClient)
          (let dstDir :=
             slug_Namespace (SlugInfo b) +++ "/backup/" +++ GroupID b +++ "_" +++
             Version b +++ "/app_" +++ ServiceID app +++ "/" +++
             BuildVersion version +++ ".tgz" in
           r <- PushFile sFTPClient (DeliveredPath version) dstDir ;;
           match r with
           | Some err =>
               Logger_Error
                 (util_Translation lib "push slug file to sftp server error")
                 "backup_builder" "failure" ;;
               logrus_Errorf ("push  slug file error when backup app , " +++
                              Error err) ;;
               ret (Some err)
           | None =>
               sz <- GetFileSize (DeliveredPath version) ;;
               modify_b (fun b => set_BackupSize b (wrap64 (BackupSize b + sz))) ;;
               ret None
           end)
    end
  else
    let dstDir :=
      SourceDir b +++ "/app_" +++ ServiceID app +++ "/slug_" +++
      BuildVersion version +++ ".tgz" in
    CheckAndCreateDir (filepath_Dir lib dstDir) ;;
    r <- CopyFileWithProgress (DeliveredPath version) dstDir ;;
    match r with
    | Some err =>
        Logger_Error (util_Translation lib "push slug file to local dir error")
                     "backup_builder" "failure" ;;
        logrus_Errorf ("copy slug file error when backup app, " +++ Error err) ;;
        ret (Some err)
    | None => ret None
    end.

(** *** [uploadImage] (lines 363-399) *)

Definition uploadImage (app : RegionServiceSnapshot) (version : VersionInfo)
  : M (option error) :=
  b <- get_b ;;
  if (Mode b == "full-online") && negb (HubURL (ImageInfo b) == "") then
    match CreateShareImage lib version (HubURL (ImageInfo b))
            (image_Namespace (ImageInfo b)) (Version b +++ "_backup") with
    | inl err =>
        ret (Some (fmt_Errorf ("create backup image error " +++ Error err)))
    | inr backupImage =>
        r <- ImagePull (DeliveredPath version) "" "" 10 ;;
        match r with
        | inl err =>
            ret (Some (fmt_Errorf ("pull image when backup error " +++ Error err)))
        | inr info =>
            r <- ImageTag (DeliveredPath version) backupImage 1 ;;
            match r with
            | Some err =>
                ret (Some (fmt_Errorf ("change  image tag when backup error " +++
                                       Error err)))
            | None =>
                r <- (if IsTrust (ImageInfo b)
                      then TrustedImagePush backupImage (HubUser (ImageInfo b))
                             (HubPassword (ImageInfo b)) 10
                      else ImagePush backupImage (HubUser (ImageInfo b))
                             (HubPassword (ImageInfo b)) 10) ;;
                match r with
                | Some err =>
                    Logger_Error (util_Translation lib "save image to hub error")
                                 "backup_builder" "failure" ;;
                    ret (Some (fmt_Errorf ("backup image push error " +++
                                           Error err)))
                | None =>
                    modify_b (fun b =>
                      set_BackupSize b (wrap64 (BackupSize b + Size info))) ;;
                    ret None
                end
            end
        end
    end
  else
    let dstDir :=
      SourceDir b +++ "/app_" +++ ServiceID app +++ "/image_" +++
      BuildVersion version +++ ".tar" in
    CheckAndCreateDir (filepath_Dir lib dstDir) ;;
    r <- ImageSave (DeliveredPath version) dstDir ;;
    match r with
    | Some err =>
        Logger_Error (util_Translation lib "save image to local dir error")
                     "backup_builder" "failure" ;;
        logrus_Errorf ("save image(" +++ DeliveredPath version +++
                       ") to local dir error when backup app, " +++ Error err) ;;
        ret (Some err)
    | None => ret None
    end.

(** *** [backupServiceInfo] (lines 221-285) *)

(** Lines 230-240 of the loop body: the slug case.  The boolean tells
    whether the body left by [continue]. *)
Definition backupSlugVersion (app : RegionServiceSnapshot)
    (version : VersionInfo) (backupVersionSize : Z)
  : M (Z * VersionInfo * bool) :=
  if (DeliveredType version == "slug") && (FinalStatus version == "success")
  then
    '(ok, _) <- checkVersionExist version ;;
    if negb ok then ret (backupVersionSize, set_FinalStatus version "lost", true)
    else
      r <- uploadSlug app version ;;
      match r with
      | Some err =>
          logrus_Errorf ("upload app " +++ ServiceName (Service app) +++
                         " version " +++ BuildVersion version +++
                         " slug file error." +++ Error err) ;;
          ret (backupVersionSize, version, false)
      | None => ret (backupVersionSize + 1, version, false)
      end
  else ret (backupVersionSize, version, false).

(** Lines 241-251 of the loop body: the image case. *)
Definition backupImageVersion (app : RegionServiceSnapshot)
    (version : VersionInfo) (backupVersionSize : Z)
  : M (Z * VersionInfo) :=
  if (DeliveredType version == "image") && (FinalStatus version == "success")
  then
    '(ok, _) <- checkVersionExist version ;;
    if negb ok then ret (backupVersionSize, set_FinalStatus version "lost")
    else
      r <- uploadImage app version ;;
      match r with
      | Some err =>
          logrus_Errorf ("upload app " +++ ServiceName (Service app) +++
                         " version " +++ BuildVersion version +++
                         " image error." +++ Error err) ;;
          ret (backupVersionSize, version)
      | None => ret (backupVersionSize + 1, version)
      end
  else ret (backupVersionSize, version).

(** One pass through the body of the loop over versions (lines 230-251). *)
Definition backupVersion (app : RegionServiceSnapshot)
    (version : VersionInfo) (backupVersionSize : Z)
  : M (Z * VersionInfo) :=
  '(n, version', continue) <- backupSlugVersion app version backupVersionSize ;;
  if continue : bool then ret (n, version')
  else backupImageVersion app version' n.

(** The loop over [app.Versions] (lines 226-252): the counter and the
    versions as the loop leaves them. *)
Fixpoint backupVersions (app : RegionServiceSnapshot)
    (versions : list VersionInfo) (backupVersionSize : Z)
  : M (Z * list VersionInfo) :=
  match versions with
  | [] => ret (backupVersionSize, [])
  | version :: rest =>
      if backupVersionSize >=? maxBackupVersionSize
      then ret (backupVersionSize, version :: rest)
      else
        '(n, version') <- backupVersion app version backupVersionSize ;;
        '(n', rest') <- backupVersions app rest n ;;
        ret (n', version' :: rest')
  end.

(** [GetVolumeDir] (lines 439-449) *)
Definition GetVolumeDir : string * string :=
  let localPath := os_Getenv lib "LOCAL_DATA_PATH" in
  let sharePath := os_Getenv lib "SHARE_DATA_PATH" in
  (if localPath == "" then "/grlocaldata" else localPath,
   if sharePath == "" then "/grdata" else sharePath).

(** Lines 261-271: the data directory of the whole service. *)
Definition backupAllData (app : RegionServiceSnapshot) : M (option error) :=
  if (Z.of_nat (List.length (ServiceVolume app)) >? 0) then
    b <- get_b ;;
    let dstDir := SourceDir b +++ "/data_" +++ "all" +++ "/" +++ "data" +++ ".zip" in
    let sharepath := snd GetVolumeDir in
    let serviceVolumeData :=
      path_Join lib [sharepath; "tenant"; TenantID (Service app);
                     "service"; svc_ServiceID (Service app)] in
    empty <- DirIsEmpty serviceVolumeData ;;
    if negb empty then
      r <- Zip serviceVolumeData dstDir ;;
      match r with
      | Some err =>
          logrus_Errorf ("backup service(" +++ ServiceID app +++
                         ") volume data error." +++ Error err) ;;
          ret (Some err)
      | None => ret None
      end
    else ret None
  else ret None.

(** One pass through the body of the loop over volumes (lines 273-280). *)
Definition backupVolume (app : RegionServiceSnapshot)
    (volume : TenantServiceVolume) : M (option error) :=
  b <- get_b ;;
  let dstDir :=
    SourceDir b +++ "/data_" +++ ServiceID app +++ "/" +++
    strings_Replace_slash (VolumeName volume) +++ ".zip" in
  let hostPath := HostPath volume in
  if negb (hostPath == "") then
    empty <- DirIsEmpty hostPath ;;
    if negb empty then
      r <- Zip hostPath dstDir ;;
      match r with
      | Some err =>
          logrus_Errorf ("backup service(" +++ ServiceID app +++ ") volume(" +++
                         VolumeName volume +++ ") data error." +++ Error err) ;;
          ret (Some err)
      | None => ret None
      end
    else ret None
  else ret None.

(** The loop over [app.ServiceVolume] (lines 272-281). *)
Fixpoint backupVolumes (app : RegionServiceSnapshot)
    (volumes : list TenantServiceVolume) : M (option error) :=
  match volumes with
  | [] => ret None
  | volume :: rest =>
      r <- backupVolume app volume ;;
      match r with
      | Some err => ret (Some err)
      | None => backupVolumes app rest
      end
  end.

(** Lines 223-258 for one service: the runtime artifacts.  The result is
    the service with its versions as the loop left them, and the error of
    line 255 when no version was backed up. *)
Definition backupRuntime (app : RegionServiceSnapshot)
  : M (option error * RegionServiceSnapshot) :=
  Logger_Info ("Start backup Application(" +++ ServiceAlias (Service app) +++
               ") runtime") "backup_builder" "starting" ;;
  '(backupVersionSize, versions') <- backupVersions app (Versions app) 0 ;;
  let app := set_Versions app versions' in
  if backupVersionSize =? 0 then
    Logger_Error ("Application(" +++ ServiceAlias (Service app) +++
                  ") Backup build version failure.")
                 "backup_builder" "success" ;;
    ret (Some (fmt_Errorf ("Application(" +++ ServiceAlias (Service app) +++
                           ") Backup build version failure")), app)
  else
    logrus_Infof ("backup app " +++ ServiceName (Service app) +++ " " +++
                  fmt_d backupVersionSize +++ " version") ;;
    Logger_Info ("Complete backup application (" +++
                 ServiceAlias (Service app) +++ ") runtime " +++
                 fmt_d backupVersionSize +++ " version")
                "backup_builder" "success" ;;
    ret (None, app).

(** Lines 259-282 for one service: the persistent data. *)
Definition backupData (app : RegionServiceSnapshot) : M (option error) :=
  Logger_Info ("Start backup application(" +++ ServiceAlias (Service app) +++
               ") persistent data") "backup_builder" "starting" ;;
  r <- backupAllData app ;;
  match r with
  | Some err => ret (Some err)
  | None =>
      r <- backupVolumes app (ServiceVolume app) ;;
      match r with
      | Some err => ret (Some err)
      | None =>
          Logger_Info ("Complete backup application(" +++
                       ServiceAlias (Service app) +++ ") persistent data")
                      "backup_builder" "success"  ;;
          ret None
      end
  end.

(** The loop over the services.  Besides the error, the result holds the
    snapshots as the worker leaves them: it writes [FinalStatus] through
    the version pointers. *)
Fixpoint backupServiceInfo (serviceInfos : list RegionServiceSnapshot)
  : M (option error * list RegionServiceSnapshot) :=
  match serviceInfos with
  | [] => ret (None, [])
  | app :: rest =>
      '(r, app') <- backupRuntime app ;;
      match r with
      | Some err => ret (Some err, app' :: rest)
      | None =>
          r <- backupData app' ;;
          match r with
          | Some err => ret (Some err, app' :: rest)
          | None =>
              '(r, rest') <- backupServiceInfo rest ;;
              ret (r, app' :: rest')
          end
      end
  end.

(** *** [backupPluginInfo] (lines 287-304) *)

(** One pass through the body of the loop over plugin build versions. *)
Definition backupPluginVersion (pv : TenantPluginBuildVersion)
  : M (option error) :=
  b <- get_b ;;
  let dstDir :=
    SourceDir b +++ "/plugin_" +++ PluginID pv +++ "/image_" +++
    DeployVersion pv +++ ".tar" in
  CheckAndCreateDir (filepath_Dir lib dstDir) ;;
  r <- ImagePull (BuildLocalImage pv) "" "" 20 ;;
  match r with
  | inl err =>
      Logger_Error ("plugin image: " +++ BuildLocalImage pv +++
                    "; failed to pull image") "backup_builder" "failure" ;;
      logrus_Errorf ("plugin image: " +++ BuildLocalImage pv +++
                     "; failed to pull image: " +++ Error err) ;;
      ret (Some err)
  | inr _ =>
      r <- ImageSave (BuildLocalImage pv) dstDir ;;
      match r with
      | Some err =>
          Logger_Error (util_Translation lib "save image to local dir error")
                       "backup_builder" "failure" ;;
          logrus_Errorf ("plugin image: " +++ BuildLocalImage pv +++
                         "; failed to save image: " +++ Error err) ;;
          ret (Some err)
      | None => ret None
      end
  end.

Fixpoint backupPluginVersions (pvs : list TenantPluginBuildVersion)
  : M (option error) :=
  match pvs with
  | [] => ret None
  | pv :: rest =>
      r <- backupPluginVersion pv ;;
      match r with
      | Some err => ret (Some err)
      | None => backupPluginVersions rest
      end
  end.

Definition backupPluginInfo (appSnapshot : AppSnapshot) : M (option error) :=
  Logger_Info "Start backup plugin" "backup_builder" "starting" ;;
  backupPluginVersions (PluginBuildVersions appSnapshot).

(** *** [updateBackupStatu] (lines 425-436) *)

Definition updateBackupStatu (status : string) : M (option error) :=
  b <- get_b ;;
  r <- GetAppBackup (BackupID b) ;;
  match r with
  | inl err =>
      logrus_Errorf ("update backup group app history failure " +++ Error err) ;;
      ret (Some err)
  | inr backupstatus =>
      UpdateModel (mkAppBackup (ab_BackupID backupstatus) status
                     (SourceDir b) (SourceType b) (BackupSize b))
  end.

(** *** [Run] (lines 132-204) *)

(** Lines 144-168: the services, and for the new metadata the plugins. *)
Definition Run_backup (metadata metaVersion : string) : M (option error) :=
  if metaVersion == OldMetadata then
    match unmarshal_Services lib metadata with
    | inl err =>
        Logger_Info "Failed to unmarshal metadata into RegionServiceSnapshot"
                    "backup_builder" "failure" ;;
        ret (Some err)
    | inr svcSnapshot =>
        '(r, _) <- backupServiceInfo svcSnapshot ;;
        match r with
        | Some err =>
            Logger_Info "Failed to backup metadata service info"
                        "backup_builder" "failure" ;;
            ret (Some err)
        | None => ret None
        end
    end
  else
    match unmarshal_AppSnapshot lib metadata with
    | inl err =>
        Logger_Info "Failed to unmarshal metadata into AppSnapshot"
                    "backup_builder" "failure" ;;
        ret (Some err)
    | inr appSnapshot =>
        '(r, services') <- backupServiceInfo (Services appSnapshot) ;;
        match r with
        | Some err =>
            Logger_Info "Failed to backup metadata service info"
                        "backup_builder" "failure" ;;
            ret (Some err)
        | None =>
            r <- backupPluginInfo
                   (mkAppSnapshot services' (PluginBuildVersions appSnapshot)) ;;
            match r with
            | Some err =>
                Logger_Info "Failed to backup metadata plugin info"
                            "backup_builder" "failure" ;;
                ret (Some err)
            | None => ret None
            end
        end
    end.

(** Lines 170-172: the trailing separator of the source directory. *)
Definition Run_normalize : M unit :=
  b <- get_b ;;
  if strings_HasSuffix (SourceDir b) "/" then
    match slice_to (SourceDir b) (len (SourceDir b) - 2) with
    | Some s => modify_b (fun b => set_SourceDir b s)
    | None => panic "slice bounds out of range"
    end
  else ret tt.

(** Lines 173-203: the archive, the upload of the archive, the status. *)
Definition Run_finish : M (option error) :=
  b <- get_b ;;
  r <- Zip (SourceDir b) (SourceDir b +++ ".zip") ;;
  match r with
  | Some err =>
      Logger_Info "Compressed backup metadata failed" "backup_builder" "starting" ;;
      ret (Some err)
  | None =>
      sz <- GetFileSize (SourceDir b +++ ".zip") ;;
      modify_b (fun b => set_BackupSize b (wrap64 (BackupSize b + sz))) ;;
      RemoveAll (SourceDir b) ;;
      modify_b (fun b => set_SourceDir b (SourceDir b +++ ".zip")) ;;
      b <- get_b ;;
      if (Mode b == "full-online") && negb (FTPHost (SlugInfo b) == "")
         && negb (FTPPort (SlugInfo b) == "")
      then
        Logger_Info "Start uploading backup metadata to the cloud"
                    "backup_builder" "starting" ;;
        r <- NewSFTPClient (FTPUser (SlugInfo b)) (FTPPassword (SlugInfo b))
                           (FTPHost (SlugInfo b)) (FTPPort (SlugInfo b)) ;;
        match r with
        | inl err =>
            Logger_Error (util_Translation lib "create ftp client error")
                         "backup_builder" "failure" ;;
            ret (Some err)
        | inr sFTPClient =>
            defer (Close sFTPClient)
              (let dstDir :=
                 slug_Namespace (SlugInfo b) +++ "/backup/" +++ GroupID b +++
                 "_" +++ Version b +++ "/metadata_data.zip" in
               r <- PushFile sFTPClient (SourceDir b) dstDir ;;
               match r with
               | Some err =>
                   Logger_Error
                     (util_Translation lib "push slug file to sftp server error")
                     "backup_builder" "failure" ;;
                   logrus_Errorf ("push  slug file error when backup app , " +++
                                  Error err) ;;
                   ret (Some err)
               | None =>
                   Remove (SourceDir b) ;;
                   modify_b (fun b => set_SourceDir b dstDir) ;;
                   modify_b (fun b => set_SourceType b "sftp") ;;
                   updateBackupStatu "success"
               end)
        end
      else updateBackupStatu "success"
  end.

(** [Run]; the timeout is accepted and never looked at. *)
Definition Run (timeout : Z) : M (option error) :=
  b <- get_b ;;
  r <- ReadFile (SourceDir b +++ "/region_apps_metadata.json") ;;
  match r with
  | inl err => ret (Some err)
  | inr metadata =>
      match judgeMetadataVersion metadata with
      | (_, Some err) =>
          Logger_Info "Failed to judge the version of metadata"
                      "backup_builder" "failure" ;;
          ret (Some err)
      | (metaVersion, None) =>
          r <- Run_backup metadata metaVersion ;;
          match r with
          | Some err => ret (Some err)
          | None => Run_normalize ;; Run_finish
          end
      end
  end.

(** [ErrorCallBack] (lines 417-423) *)
Definition ErrorCallBack (err : option error) : M unit :=
  match err with
  | Some e =>
      logrus_Errorf ("backup group app failure " +++ Error e) ;;
      Logger_Error (util_Translation lib "backup group app failure")
                   "callback" "failure" ;;
      _ <- updateBackupStatu "failed" ;;
      ret tt
  | None => ret tt
  end.

End Exector.

(** ** Reading a trace *)

(** The state after some more calls. *)
Definition after (st : State) (evs : History) : State :=
  mkState (task st) (trace st ++ evs).

(** Mapping over the value of an outcome. *)
Definition omap {A B} (f : A -> B) (o : Outcome A) : Outcome B :=
  match o with
  | Done a => Done (f a)
  | Panic msg => Panic msg
  end.




(** The sizes of the artifacts copied or exported into the working
    directory do not enter [reportedBytes]: no collaborator is asked for
    them. *)


(** ** A concrete site, to run the worker on *)

Module Demo.

Fixpoint mem (s : string) (l : list string) : bool :=
  match l with
  | [] => false
  | x :: l' => (s == x) || mem s l'
  end.

(** What the outside looks like. *)
Record Site : Type := mkSite {
  metadata : string;               (* content of region_apps_metadata.json *)
  absent : list string;            (* paths and images that do not exist *)
  unreadable : list string;        (* paths whose stat fails otherwise *)
  registryDown : bool;             (* no registry client can be built *)
  failing : list string;           (* paths and images whose transfer fails *)
  emptyDirs : list string;
  fileSize : string -> Z;
  imageSize : string -> Z
}.

Definition ioErr (msg : string) : error := mkError msg false.

Definition env (w : Site) : Env :=
  mkEnv
    (fun _ _ => inr (metadata w))
    (fun _ path =>
       if mem path (absent w) then inl (mkError "no such file or directory" true)
       else if mem path (unreadable w) then inl (ioErr "permission denied")
       else inr (mkFileInfo false))
    (fun _ url _ _ =>
       if registryDown w then inl (ioErr "connection refused")
       else inr (mkRegistry url))
    (fun _ _ name _ =>
       if mem name (absent w) then Some (ioErr "manifest unknown") else None)
    (fun _ user password host port =>
       inr (mkSFTPClient user password host port))
    (fun _ _ src _ => if mem src (failing w) then Some (ioErr "push failed") else None)
    (fun _ path => fileSize w path)
    (fun _ src _ => if mem src (failing w) then Some (ioErr "copy failed") else None)
    (fun _ image _ _ _ =>
       if mem image (failing w) then inl (ioErr "pull failed")
       else inr (mkImageInspect (imageSize w image)))
    (fun _ _ _ _ => None)
    (fun _ _ _ _ _ => None)
    (fun _ _ _ _ _ => None)
    (fun _ image dst =>
       if mem dst (failing w) then Some (ioErr "save failed") else None)
    (fun _ path => mem path (emptyDirs w))
    (fun _ _ _ => None)
    (fun _ id => inr (mkAppBackup id "starting" "" "" 0))
    (fun _ _ => None).

Fixpoint hasSlash (s : string) : bool :=
  match s with
  | EmptyString => false
  | String c rest => Ascii.eqb c "/"%char || hasSlash rest
  end.

(** The path up to its last separator. *)
Fixpoint dirname (s : string) : string :=
  match s with
  | EmptyString => EmptyString
  | String c rest => if hasSlash rest then String c (dirname rest) else EmptyString
  end.

(** A decoder that looks at the first byte only: an object decodes as
    the structured snapshot [snap], an array as its list of services. *)
Definition lib (snap : AppSnapshot) : Lib :=
  mkLib
    (fun blob =>
       match blob with
       | String "{"%char _ => inr snap
       | _ => inl (ioErr "cannot unmarshal into AppSnapshot")
       end)
    (fun blob =>
       match blob with
       | String "["%char _ => inr (Services snap)
       | _ => inl (ioErr "cannot unmarshal into []*RegionServiceSnapshot")
       end)
    dirname
    (fun elems => String.concat "/" elems)
    (fun image => mkImageName "goodrain.me" image "latest")
    (fun v hub ns tag => inr (hub +++ "/" +++ ns +++ "/" +++ BuildVersion v +++ ":" +++ tag))
    (fun s => s)
    (fun _ => "").

Definition quiet : Site :=
  mkSite "{}" [] [] false [] [] (fun _ => 10) (fun _ => 100).

Definition slug (n : string) : VersionInfo :=
  mkVersionInfo n "slug" ("/grdata/build/" +++ n +++ ".tgz") "success".

Definition image (n : string) : VersionInfo :=
  mkVersionInfo n "image" ("goodrain.me/app:" +++ n) "success".

Definition service (id : string) (vols : list TenantServiceVolume)
    (vs : list VersionInfo) : RegionServiceSnapshot :=
  mkRegionServiceSnapshot id (mkTenantServices "t1" id ("gr" +++ id) ("svc-" +++ id))
    vols vs.

Definition offline : BackupAPPNew :=
  mkBackupAPPNew "g1" ["s1"] "full-offline" "v20" "e1"
    (mkSlugInfo "" "" "" "" "") (mkImageInfo "" "" "" "" false)
    "/grdata/backup/g1" "local" "b1" 0.


Definition start (b : BackupAPPNew) : State := mkState b [].


(** One service with one slug version and no volume, and a second
    service behind it. *)
Definition s1 : RegionServiceSnapshot := service "s1" [] [slug "v1"].




Definition plugin (id : string) : TenantPluginBuildVersion :=
  mkTenantPluginBuildVersion id "d1" ("goodrain.me/plugin:" +++ id).

(** The archive of the working directory is 12 bytes, any other file 10. *)
Definition sizes (path : string) : Z :=
  if path == "/grdata/backup/g1.zip" then 12 else 10.

(** Everything is there and works. *)
Definition healthy (blob : string) : Site :=
  mkSite blob [] [] false [] [] sizes (fun _ => 100).



(** The file of version v1 cannot be copied. *)
Definition v1_stuck : Site :=
  mkSite "{}" [] [] false ["/grdata/build/v1.tgz"] [] sizes (fun _ => 100).

(** The image of plugin p2 cannot be pulled. *)
Definition p2_stuck : Site :=
  mkSite "{}" [] [] false ["goodrain.me/plugin:p2"] [] sizes (fun _ => 100).

(** The libraries and the environment the examples run in. *)
Definition L1 : Lib := lib (mkAppSnapshot [s1] []).
Definition E : Env := env (healthy "{}").

(** A snapshot with three plugin build versions. *)
Definition L3 : Lib :=
  lib (mkAppSnapshot [s1] [plugin "p1"; plugin "p2"; plugin "p3"]).

End Demo.

(** ** The rest of the package *)

(** The fields of [dbmodel.TenantServiceLable] that [GetServiceType] reads. *)
Record TenantServiceLable : Type := mkTenantServiceLable {
  LabelKey : string;
  LabelValue : string
}.

(** [GetServiceType] (lines 452-459).  The constants
    [dbmodel.LabelKeyServiceType] and [util.StatelessServiceType] belong to
    other packages and are arguments here. *)
Fixpoint GetServiceType (LabelKeyServiceType StatelessServiceType : string)
    (labels : list TenantServiceLable) : string :=
  match labels with
  | [] => StatelessServiceType
  | l :: rest =>
      if LabelKey l == LabelKeyServiceType then LabelValue l
      else GetServiceType LabelKeyServiceType StatelessServiceType rest
  end.

(** ** More ways to read a trace and a run *)

(** The SFTP sessions that were opened, and those that were closed, oldest
    first. *)
Fixpoint opened (h : History) : list SFTPClient :=
  match h with
  | [] => []
  | EvNewSFTPClient _ _ _ _ (inr c) :: h' => c :: opened h'
  | _ :: h' => opened h'
  end.

Fixpoint closed (h : History) : list SFTPClient :=
  match h with
  | [] => []
  | EvClose c :: h' => c :: closed h'
  | _ :: h' => closed h'
  end.

(** Calls that reach the SFTP endpoint or the remote hub. *)
Definition remote_call (ev : Event) : bool :=
  match ev with
  | EvNewSFTPClient _ _ _ _ _ | EvPushFile _ _ _ _ | EvClose _
  | EvImageTag _ _ _ _ | EvImagePush _ _ _ _ _
  | EvTrustedImagePush _ _ _ _ _ => true
  | _ => false
  end.

(** Calls that write the status record or delete something. *)
Definition final_call (ev : Event) : bool :=
  match ev with
  | EvUpdateModel _ _ | EvRemoveAll _ | EvRemove _ => true
  | _ => false
  end.

(** Whether the existence check finds the version. *)
Definition found (lib : Lib) (env : Env) (v : VersionInfo) (st : State) : bool :=
  match fst (checkVersionExist lib env v st) with
  | Done (ok, _) => ok
  | Panic _ => false
  end.

(** A version the loop of [backupServiceInfo] passes over: its status is
    not success, or its kind is neither slug nor image. *)
Definition passed_over (v : VersionInfo) : Prop :=
  FinalStatus v <> "success" \/
  (DeliveredType v <> "slug" /\ DeliveredType v <> "image").

(** A property of the state that a computation keeps. *)
Definition invariant {A} (I : State -> Prop) (m : M A) : Prop :=
  forall st, I st -> I (snd (m st)).

(** ** Properties *)

Unset Implicit Arguments.

Lemma bind_Done {A B} (m : M A) (k : A -> M B) st a st' :
  m st = (Done a, st') -> bind m k st = k a st'.
Proof. intros H. unfold bind. rewrite H. reflexivity. Qed.

Lemma bind_Panic {A B} (m : M A) (k : A -> M B) st msg st' :
  m st = (Panic msg, st') -> bind m k st = (Panic msg, st').
Proof. intros H. unfold bind. rewrite H. reflexivity. Qed.





(** Unfolding of the monad, for the proofs that follow a function through
    its calls. *)
Ltac unfold_calls :=
  unfold ReadFile, Stat, NewInsecure, Manifest, NewSFTPClient, PushFile, Close,
    GetFileSize, CheckAndCreateDir, CopyFileWithProgress, ImagePull, ImageTag,
    TrustedImagePush, ImagePush, ImageSave, DirIsEmpty, Zip, RemoveAll, Remove,
    GetAppBackup, UpdateModel, Logger_Info, Logger_Error, logrus_Errorf,
    logrus_Infof in *.

Ltac unfold_monad :=
  unfold bind, ret, call, emit, get_b, modify_b, defer, panic in *.

Ltac step := unfold_calls; unfold_monad; cbn [fst snd task trace] in *.

(** Comparison of two string literals. *)
Ltac eval_eqb :=
  repeat match goal with
         | |- context [String.eqb ?a ?b] =>
             let r := eval vm_compute in (String.eqb a b) in
             first [constr_eq r true | constr_eq r false];
             change (String.eqb a b) with r
         end;
  cbn [andb orb negb].

(** Case analysis on an innermost scrutinee of the goal. *)
Ltac case_inner :=
  match goal with
  | |- context [match ?x with _ => _ end] =>
      lazymatch x with
      | context [match _ with _ => _ end] => fail
      | _ => destruct x eqn:?
      end
  end.

(** Rewriting with the equations at hand, and running the monad on what
    they give. *)
Ltac use_eqs :=
  repeat match goal with
         | H : ?l = _ |- context [?l] => rewrite H
         end.

Ltac crunch :=
  repeat progress
    (use_eqs; eval_eqb;
     unfold bind, ret, emit, call, logrus_Errorf, Logger_Error, Logger_Info,
       logrus_Infof;
     cbv beta iota; cbn [fst snd task trace negb andb orb]).

(** *** The size counter and the trace *)














(** A computation that always returns. *)
Definition total {A} (m : M A) : Prop :=
  forall st, exists a st', m st = (Done a, st').

Lemma total_ret {A} (a : A) : total (ret a).
Proof. intros st. exists a, st. reflexivity. Qed.

Lemma total_bind {A B} (m : M A) (k : A -> M B) :
  total m -> (forall a, total (k a)) -> total (bind m k).
Proof.
  intros Hm Hk st. destruct (Hm st) as [a [st1 H1]].
  destruct (Hk a st1) as [b [st2 H2]]. exists b, st2.
  unfold bind. rewrite H1. exact H2.
Qed.

Lemma total_call {R} (oracle : History -> R) (ev : R -> Event) :
  total (call oracle ev).
Proof. intros st. eexists. eexists. reflexivity. Qed.

Lemma total_emit ev : total (emit ev).
Proof. intros st. eexists. eexists. reflexivity. Qed.

Lemma total_get_b : total get_b.
Proof. intros st. eexists. eexists. reflexivity. Qed.

Lemma total_modify_b f : total (modify_b f).
Proof. intros st. eexists. eexists. reflexivity. Qed.

Lemma total_defer {A} (d : M unit) (body : M A) :
  total d -> total body -> total (defer d body).
Proof.
  intros Hd Hb st. destruct (Hb st) as [a [st1 H1]].
  destruct (Hd st1) as [u [st2 H2]]. exists a, st2.
  unfold defer. rewrite H1, H2. reflexivity.
Qed.

Ltac totality :=
  unfold_calls;
  repeat first
    [ apply total_ret | apply total_emit | apply total_call
    | apply total_get_b | apply total_modify_b
    | apply total_defer
    | apply total_bind; [|intros ?]
    | match goal with
      | |- total (match ?x with _ => _ end) => destruct x
      | |- total (let _ := _ in _) => cbv zeta
      end ].

Section Properties.

Variable lib : Lib.
Variable env : Env.
Variable cap : Z.   (* the value of [maxBackupVersionSize] *)

(** *** The loop over the versions of one service *)

(** While the counter is below the cap, the loop runs its body on the
    first version and goes on with the others. *)
Lemma backupVersions_cons app v rest n st :
  n < cap ->
  backupVersions lib env cap app (v :: rest) n st =
    match backupVersion lib env app v n st with
    | (Done (n1, v'), st1) =>
        let '(r, st2) := backupVersions lib env cap app rest n1 st1 in
        (omap (fun '(n', rest') => (n', v' :: rest')) r, st2)
    | (Panic msg, st1) => (Panic msg, st1)
    end.
Proof.
  intros Hn. cbn [backupVersions].
  destruct (Z.geb_spec n cap) as [Hge|_]; [lia|].
  unfold bind.
  destruct (backupVersion lib env app v n st) as [[[n1 v']|msg] st1];
    [|reflexivity].
  destruct (backupVersions lib env cap app rest n1 st1)
    as [[[n' rest']|msg] st2]; reflexivity.
Qed.

(** At the cap the loop leaves at once. *)
Lemma backupVersions_break app vs n st :
  cap <= n ->
  backupVersions lib env cap app vs n st = (Done (n, vs), st).
Proof.
  intros Hn. destruct vs as [|v rest]; [reflexivity|].
  cbn [backupVersions].
  destruct (Z.geb_spec n cap) as [_|Hlt]; [reflexivity|lia].
Qed.


(** The body on a version that is there and whose transfer fails. *)
Lemma backupVersion_slug_failed app v n st e st1 err st2 :
  DeliveredType v = "slug" ->
  FinalStatus v = "success" ->
  checkVersionExist lib env v st = (Done (true, e), st1) ->
  uploadSlug lib env app v st1 = (Done (Some err), st2) ->
  backupVersion lib env app v n st =
    (Done (n, v),
     after st2 [EvLogrusErrorf
                  ("upload app " +++ ServiceName (Service app) +++ " version " +++
                   BuildVersion v +++ " slug file error." +++ Error err)]).
Proof.
  intros Hk Hs Hc Hu.
  unfold backupVersion, backupSlugVersion, backupImageVersion.
  crunch. reflexivity.
Qed.

Lemma backupVersion_image_failed app v n st e st1 err st2 :
  DeliveredType v = "image" ->
  FinalStatus v = "success" ->
  checkVersionExist lib env v st = (Done (true, e), st1) ->
  uploadImage lib env app v st1 = (Done (Some err), st2) ->
  backupVersion lib env app v n st =
    (Done (n, v),
     after st2 [EvLogrusErrorf
                  ("upload app " +++ ServiceName (Service app) +++ " version " +++
                   BuildVersion v +++ " image error." +++ Error err)]).
Proof.
  intros Hk Hs Hc Hu.
  unfold backupVersion, backupSlugVersion, backupImageVersion.
  crunch. reflexivity.
Qed.



(** *** What the existence check answers *)




(** *** Versions that are not found *)



(** *** Where the errors of [backupServiceInfo] come from *)

Lemma backupRuntime_error app st e app' st' :
  backupRuntime lib env cap app st = (Done (Some e, app'), st') ->
  e = fmt_Errorf ("Application(" +++ ServiceAlias (Service app) +++
                  ") Backup build version failure").
Proof.
  unfold backupRuntime. crunch.
  destruct (backupVersions lib env cap app (Versions app) 0 _)
    as [[[n vs']|msg] st1]; [|discriminate].
  destruct (n =? 0); crunch; intros H; inversion H; reflexivity.
Qed.

Lemma backupAllData_error app st e st' :
  backupAllData lib env app st = (Done (Some e), st') ->
  exists src dst, In (EvZip src dst (Some e)) (trace st').
Proof.
  unfold backupAllData.
  destruct (Z.of_nat (length (ServiceVolume app)) >? 0); [|discriminate].
  unfold get_b, DirIsEmpty, Zip. crunch.
  destruct (util_DirIsEmpty env (trace st) _); crunch; [discriminate|].
  destruct (util_Zip env _ _ _) as [err|] eqn:Hz; crunch; [|discriminate].
  intros H. inversion H. subst. do 2 eexists.
  cbn [trace]. rewrite !in_app_iff. left. right. left. reflexivity.
Qed.

Lemma backupVolume_error app volume st e st' :
  backupVolume env app volume st = (Done (Some e), st') ->
  exists src dst, In (EvZip src dst (Some e)) (trace st').
Proof.
  unfold backupVolume. unfold get_b, DirIsEmpty, Zip. crunch.
  destruct (HostPath volume == ""); crunch; [discriminate|].
  destruct (util_DirIsEmpty env (trace st) _); crunch; [discriminate|].
  destruct (util_Zip env _ _ _) as [err|] eqn:Hz; crunch; [|discriminate].
  intros H. inversion H. subst. do 2 eexists.
  cbn [trace]. rewrite !in_app_iff. left. right. left. reflexivity.
Qed.

Lemma backupVolumes_error app volumes st e st' :
  backupVolumes env app volumes st = (Done (Some e), st') ->
  exists src dst, In (EvZip src dst (Some e)) (trace st').
Proof.
  revert st. induction volumes as [|volume rest IH]; intros st.
  - discriminate.
  - cbn [backupVolumes]. unfold bind.
    destruct (backupVolume env app volume st) as [[[err|]|msg] st1] eqn:Hv;
      [|apply IH|discriminate].
    unfold ret. intros H. inversion H. subst.
    apply (backupVolume_error _ _ _ _ _ Hv).
Qed.

Lemma backupData_error app st e st' :
  backupData lib env app st = (Done (Some e), st') ->
  exists src dst, In (EvZip src dst (Some e)) (trace st').
Proof.
  unfold backupData. crunch.
  destruct (backupAllData lib env app _) as [[[err|]|msg] st1] eqn:Ha;
    [|..|discriminate].
  - intros H. inversion H. subst. apply (backupAllData_error _ _ _ _ Ha).
  - destruct (backupVolumes env app _ st1) as [[[err|]|msg] st2] eqn:Hv;
      [| |discriminate].
    + intros H. inversion H. subst. apply (backupVolumes_error _ _ _ _ _ Hv).
    + crunch. discriminate.
Qed.

(** An error of [backupServiceInfo] is the error of line 255 for one of
    the services, or an error that [util.Zip] gave. *)
Lemma backupServiceInfo_error serviceInfos st e serviceInfos' st' :
  backupServiceInfo lib env cap serviceInfos st =
    (Done (Some e, serviceInfos'), st') ->
  (exists app, In app serviceInfos /\
     e = fmt_Errorf ("Application(" +++ ServiceAlias (Service app) +++
                     ") Backup build version failure"))
  \/ (exists src dst, In (EvZip src dst (Some e)) (trace st')).
Proof.
  revert st serviceInfos'.
  induction serviceInfos as [|app rest IH]; intros st serviceInfos'.
  - discriminate.
  - cbn [backupServiceInfo]. unfold bind.
    destruct (backupRuntime lib env cap app st) as [[[[err|] app']|msg] st1] eqn:Hr;
      [| |discriminate].
    + unfold ret. intros H. inversion H. subst. left. exists app.
      split; [left; reflexivity|].
      apply (backupRuntime_error _ _ _ _ _ Hr).
    + destruct (backupData lib env app' st1) as [[[err|]|msg] st2] eqn:Hd;
        [| |discriminate].
      * unfold ret. intros H. inversion H. subst. right.
        apply (backupData_error _ _ _ _ Hd).
      * destruct (backupServiceInfo lib env cap rest st2)
          as [[[r rest']|msg] st3] eqn:Hrest; [|discriminate].
        unfold ret. intros H. inversion H. subst.
        destruct (IH _ _ Hrest) as [[a [Hin Ha]]|Hz].
        -- left. exists a. split; [right; exact Hin|exact Ha].
        -- right. exact Hz.
Qed.

(** C8: when the transfer of a version (slug or image) fails, the failure
    is written to the log, the counter of backed-up versions and the
    status of the version stay as they were, and the loop goes on with
    the remaining versions; and an error that [backupServiceInfo] returns
    is never one of these: it is the error of line 255 or an error of
    [util.Zip]. *)
Theorem transfer_failure_is_soft app v rest n st e st1 err st2 :
  n < cap ->
  FinalStatus v = "success" ->
  checkVersionExist lib env v st = (Done (true, e), st1) ->
  (DeliveredType v = "slug" ->
   uploadSlug lib env app v st1 = (Done (Some err), st2) ->
   backupVersions lib env cap app (v :: rest) n st =
     let '(r, st3) :=
       backupVersions lib env cap app rest n
         (after st2
            [EvLogrusErrorf
               ("upload app " +++ ServiceName (Service app) +++ " version " +++
                BuildVersion v +++ " slug file error." +++ Error err)]) in
     (omap (fun '(n', rest') => (n', v :: rest')) r, st3))
  /\
  (DeliveredType v = "image" ->
   uploadImage lib env app v st1 = (Done (Some err), st2) ->
   backupVersions lib env cap app (v :: rest) n st =
     let '(r, st3) :=
       backupVersions lib env cap app rest n
         (after st2
            [EvLogrusErrorf
               ("upload app " +++ ServiceName (Service app) +++ " version " +++
                BuildVersion v +++ " image error." +++ Error err)]) in
     (omap (fun '(n', rest') => (n', v :: rest')) r, st3))
  /\
  (forall serviceInfos s e' serviceInfos' s',
     backupServiceInfo lib env cap serviceInfos s =
       (Done (Some e', serviceInfos'), s') ->
     (exists a, In a serviceInfos /\
        e' = fmt_Errorf ("Application(" +++ ServiceAlias (Service a) +++
                         ") Backup build version failure"))
     \/ (exists src dst, In (EvZip src dst (Some e')) (trace s'))).
Proof.
  intros Hn Hs Hc. repeat split.
  - intros Hk Hu. rewrite backupVersions_cons by exact Hn.
    rewrite (backupVersion_slug_failed app v n st e st1 err st2 Hk Hs Hc Hu).
    reflexivity.
  - intros Hk Hu. rewrite backupVersions_cons by exact Hn.
    rewrite (backupVersion_image_failed app v n st e st1 err st2 Hk Hs Hc Hu).
    reflexivity.
  - apply backupServiceInfo_error.
Qed.

(** *** The services one after the other *)



(** *** The cap on the versions of one service *)

Lemma checkVersionExist_total v : total (checkVersionExist lib env v).
Proof. unfold checkVersionExist. totality. Qed.

Lemma uploadSlug_total app v : total (uploadSlug lib env app v).
Proof. unfold uploadSlug. totality. Qed.

Lemma uploadImage_total app v : total (uploadImage lib env app v).
Proof. unfold uploadImage. totality. Qed.








(** *** Persistent data *)


(** *** Plugins *)

(** Plugin records that were exported without error do not change what
    happens to the records after them. *)
Lemma backupPluginVersions_app pre post st st1 :
  backupPluginVersions lib env pre st = (Done None, st1) ->
  backupPluginVersions lib env (pre ++ post) st =
    backupPluginVersions lib env post st1.
Proof.
  revert st. induction pre as [|pv rest IH]; intros st.
  - cbn. unfold ret. intros H. inversion H. reflexivity.
  - cbn [backupPluginVersions List.app]. unfold bind.
    destruct (backupPluginVersion lib env pv st) as [[[err|]|msg] st2];
      [discriminate| |discriminate].
    apply IH.
Qed.

(** C9: when the pull or the export of the image of a plugin build
    version fails, [backupPluginInfo] returns that error from the state
    in which the failing record left it, so no later record is touched,
    and [Run] returns the same error after one more log line, without
    archiving anything. *)
Theorem plugin_failure_aborts
    timeout st0 metadata appSnapshot services' st1 pre pv post st2 err :
  ioutil_ReadFile env (trace st0)
    (SourceDir (task st0) +++ "/region_apps_metadata.json") = inr metadata ->
  unmarshal_AppSnapshot lib metadata = inr appSnapshot ->
  PluginBuildVersions appSnapshot = pre ++ pv :: post ->
  backupServiceInfo lib env cap (Services appSnapshot)
    (after st0 [EvReadFile (SourceDir (task st0) +++ "/region_apps_metadata.json")
                  (inr metadata)])
    = (Done (None, services'), st1) ->
  backupPluginVersions lib env pre
    (after st1 [EvLoggerInfo "Start backup plugin" "backup_builder" "starting"])
    = (Done None, st2) ->
  (sources_ImagePull env
     (trace st2 ++
      [EvCheckAndCreateDir
         (filepath_Dir lib (SourceDir (task st2) +++ "/plugin_" +++ PluginID pv +++
                            "/image_" +++ DeployVersion pv +++ ".tar"))])
     (BuildLocalImage pv) "" "" 20 = inl err)
  \/
  (exists info,
     sources_ImagePull env
       (trace st2 ++
        [EvCheckAndCreateDir
           (filepath_Dir lib (SourceDir (task st2) +++ "/plugin_" +++
                              PluginID pv +++ "/image_" +++ DeployVersion pv +++
                              ".tar"))])
       (BuildLocalImage pv) "" "" 20 = inr info /\
     sources_ImageSave env
       (trace st2 ++
        [EvCheckAndCreateDir
           (filepath_Dir lib (SourceDir (task st2) +++ "/plugin_" +++
                              PluginID pv +++ "/image_" +++ DeployVersion pv +++
                              ".tar"));
         EvImagePull (BuildLocalImage pv) "" "" 20 (inr info)])
       (BuildLocalImage pv)
       (SourceDir (task st2) +++ "/plugin_" +++ PluginID pv +++ "/image_" +++
        DeployVersion pv +++ ".tar") = Some err) ->
  exists st3,
    backupPluginVersion lib env pv st2 = (Done (Some err), st3) /\
    backupPluginInfo lib env (mkAppSnapshot services' (pre ++ pv :: post)) st1 =
      (Done (Some err), st3) /\
    Run lib env cap timeout st0 =
      (Done (Some err),
       after st3 [EvLoggerInfo "Failed to backup metadata plugin info"
                    "backup_builder" "failure"]).
Proof.
  intros Hread Hdec Hpvs Hsvc Hpre Hcause.
  assert (Hpv : exists st3,
             backupPluginVersion lib env pv st2 = (Done (Some err), st3)).
  { unfold backupPluginVersion, get_b, CheckAndCreateDir, ImagePull, ImageSave.
    destruct Hcause as [Hpull|[info [Hpull Hsave]]]; crunch.
    - eexists. reflexivity.
    - rewrite <- app_assoc. cbn [List.app]. crunch. eexists. reflexivity. }
  destruct Hpv as [st3 Hpv]. exists st3.
  assert (Hinfo : backupPluginInfo lib env
                    (mkAppSnapshot services' (pre ++ pv :: post)) st1 =
                  (Done (Some err), st3)).
  { unfold backupPluginInfo. cbn [PluginBuildVersions].
    unfold Logger_Info, emit, bind. unfold after in Hpre.
    rewrite (backupPluginVersions_app pre (pv :: post) _ st2 Hpre).
    cbn [backupPluginVersions]. unfold bind. rewrite Hpv. reflexivity. }
  split; [exact Hpv|]. split; [exact Hinfo|].
  unfold Run, get_b, ReadFile. unfold bind at 1. unfold bind at 1.
  unfold call. rewrite Hread.
  unfold judgeMetadataVersion. rewrite Hdec. cbn [err_of].
  unfold Run_backup.
  change (NewMetadata == OldMetadata) with false. cbv iota.
  rewrite Hdec, Hpvs. unfold after in Hsvc.
  unfold bind at 1. unfold bind at 1. rewrite Hsvc.
  unfold bind at 1. rewrite Hinfo.
  crunch. reflexivity.
Qed.

(** *** The size counter *)














(** *** The metadata classifier *)

(** [judgeMetadataVersion] never returns an error. *)
Lemma judgeMetadataVersion_no_error metadata :
  snd (judgeMetadataVersion lib metadata) = None.
Proof.
  unfold judgeMetadataVersion.
  destruct (unmarshal_AppSnapshot lib metadata); cbn [err_of]; [|reflexivity].
  destruct (unmarshal_Services lib metadata); reflexivity.
Qed.

(** A blob that neither schema accepts is classified as old. *)
Lemma judgeMetadataVersion_undecodable metadata e1 e2 :
  unmarshal_AppSnapshot lib metadata = inl e1 ->
  unmarshal_Services lib metadata = inl e2 ->
  judgeMetadataVersion lib metadata = (OldMetadata, None).
Proof.
  intros H1 H2. unfold judgeMetadataVersion. rewrite H1, H2. reflexivity.
Qed.

(** C1, what the code does: for a blob that the structured schema
    rejects and the legacy schema accepts, [judgeMetadataVersion] returns
    the empty string with no error; it does not return [OldMetadata]. *)
Theorem judgeMetadataVersion_legacy_blob metadata e svcSnapshot :
  unmarshal_AppSnapshot lib metadata = inl e ->
  unmarshal_Services lib metadata = inr svcSnapshot ->
  judgeMetadataVersion lib metadata = ("", None) /\
  fst (judgeMetadataVersion lib metadata) <> OldMetadata.
Proof.
  intros H1 H2. unfold judgeMetadataVersion. rewrite H1, H2. cbn [err_of fst].
  split; [reflexivity|discriminate].
Qed.

(** With such a blob [Run] takes the branch of the new metadata and
    fails on the decoding of the structured schema. *)
Lemma Run_legacy_blob timeout st metadata e svcSnapshot :
  ioutil_ReadFile env (trace st)
    (SourceDir (task st) +++ "/region_apps_metadata.json") = inr metadata ->
  unmarshal_AppSnapshot lib metadata = inl e ->
  unmarshal_Services lib metadata = inr svcSnapshot ->
  Run lib env cap timeout st =
    (Done (Some e),
     after st [EvReadFile (SourceDir (task st) +++ "/region_apps_metadata.json")
                 (inr metadata);
               EvLoggerInfo "Failed to unmarshal metadata into AppSnapshot"
                 "backup_builder" "failure"]).
Proof.
  intros Hread H1 H2. unfold Run, get_b, ReadFile.
  unfold bind at 1. unfold bind at 1. unfold call. rewrite Hread.
  unfold judgeMetadataVersion. rewrite H1, H2. cbn [err_of].
  unfold Run_backup. change ("" == OldMetadata) with false. cbv iota.
  rewrite H1. crunch. unfold after. cbn [task trace].
  rewrite <- app_assoc. reflexivity.
Qed.

(** *** The source directory *)

(** C3, what the code does: when the source directory ends in "/" and
    has two bytes at least, [Run_normalize] cuts its last two bytes, not
    only the separator. *)
Theorem Run_normalize_cuts_two_bytes b tr s :
  strings_HasSuffix s "/" = true ->
  2 <= len s ->
  Run_normalize (mkState (set_SourceDir b s) tr) =
    (Done tt,
     mkState (set_SourceDir b (substring 0 (String.length s - 2) s)) tr).
Proof.
  intros Hsuf Hlen. unfold Run_normalize. step.
  cbn [set_SourceDir SourceDir]. rewrite Hsuf. unfold slice_to.
  destruct (Z.leb_spec 0 (len s - 2)) as [_|Hneg]; [|lia].
  destruct (Z.leb_spec (len s - 2) (len s)) as [_|Hbig]; [|lia].
  cbn [andb]. unfold len.
  replace (Z.to_nat (Z.of_nat (String.length s) - 2))
    with (String.length s - 2)%nat by lia.
  reflexivity.
Qed.

(** A source directory that is only the separator makes [Run] panic. *)
Lemma Run_normalize_root b tr :
  fst (Run_normalize (mkState (set_SourceDir b "/") tr)) =
    Panic "slice bounds out of range".
Proof. reflexivity. Qed.

End Properties.

(** ** The properties on the concrete site *)

Import Demo.

(** *** Metadata *)

Lemma judgeMetadataVersion_legacy_blob_witness :
  unmarshal_AppSnapshot L1 "[]" = inl (ioErr "cannot unmarshal into AppSnapshot") /\
  unmarshal_Services L1 "[]" = inr [s1] /\
  judgeMetadataVersion L1 "[]" = ("", None).
Proof.
  split; [reflexivity|]. split; [reflexivity|].
  apply (judgeMetadataVersion_legacy_blob L1 "[]"
           (ioErr "cannot unmarshal into AppSnapshot") [s1]); reflexivity.
Defined.

(** *** Source directory *)

Lemma Run_normalize_cuts_two_bytes_witness :
  Run_normalize (start (set_SourceDir offline "/grdata/backup/g1/")) =
    (Done tt, start (set_SourceDir offline "/grdata/backup/g")).
Proof.
  apply (Run_normalize_cuts_two_bytes offline [] "/grdata/backup/g1/").
  - reflexivity.
  - unfold len. cbn. lia.
Defined.

(** *** Persistent data *)



(** *** The size counter *)




(** *** The cap *)



(** *** Services without a backed-up version *)


(** *** Versions that are not found, checks and transfers that fail *)



Lemma transfer_failure_is_soft_witness :
  backupVersions L1 (env v1_stuck) 3 s1 [slug "v1"; slug "v3"] 0 (start offline) =
    let '(r, st3) :=
      backupVersions L1 (env v1_stuck) 3 s1 [slug "v3"] 0
        (mkState offline
           [EvStat "/grdata/build/v1.tgz" (inr (mkFileInfo false));
            EvCheckAndCreateDir "/grdata/backup/g1/app_s1";
            EvCopyFileWithProgress "/grdata/build/v1.tgz"
              "/grdata/backup/g1/app_s1/slug_v1.tgz" (Some (ioErr "copy failed"));
            EvLoggerError "push slug file to local dir error"
              "backup_builder" "failure";
            EvLogrusErrorf "copy slug file error when backup app, copy failed";
            EvLogrusErrorf
              "upload app svc-s1 version v1 slug file error.copy failed"]) in
    (omap (fun '(n', rest') => (n', slug "v1" :: rest')) r, st3).
Proof.
  apply (proj1 (transfer_failure_is_soft L1 (env v1_stuck) 3 s1 (slug "v1")
                  [slug "v3"] 0 (start offline) None
                  (mkState offline
                     [EvStat "/grdata/build/v1.tgz" (inr (mkFileInfo false))])
                  (ioErr "copy failed")
                  (mkState offline
                     [EvStat "/grdata/build/v1.tgz" (inr (mkFileInfo false));
                      EvCheckAndCreateDir "/grdata/backup/g1/app_s1";
                      EvCopyFileWithProgress "/grdata/build/v1.tgz"
                        "/grdata/backup/g1/app_s1/slug_v1.tgz"
                        (Some (ioErr "copy failed"));
                      EvLoggerError "push slug file to local dir error"
                        "backup_builder" "failure";
                      EvLogrusErrorf
                        "copy slug file error when backup app, copy failed"])
                  ltac:(lia) ltac:(reflexivity) ltac:(reflexivity)));
    reflexivity.
Defined.

(** *** Plugins *)

Lemma plugin_failure_aborts_witness :
  exists st3,
    backupPluginVersion L3 (env p2_stuck) (plugin "p2")
      (snd (backupPluginVersions L3 (env p2_stuck) [plugin "p1"]
              (after (snd (backupServiceInfo L3 (env p2_stuck) 3 [s1]
                             (after (start offline)
                                [EvReadFile
                                   "/grdata/backup/g1/region_apps_metadata.json"
                                   (inr "{}")])))
                 [EvLoggerInfo "Start backup plugin" "backup_builder" "starting"])))
      = (Done (Some (ioErr "pull failed")), st3) /\
    backupPluginInfo L3 (env p2_stuck)
      (mkAppSnapshot [s1] ([plugin "p1"] ++ plugin "p2" :: [plugin "p3"]))
      (snd (backupServiceInfo L3 (env p2_stuck) 3 [s1]
              (after (start offline)
                 [EvReadFile "/grdata/backup/g1/region_apps_metadata.json"
                    (inr "{}")])))
      = (Done (Some (ioErr "pull failed")), st3) /\
    Run L3 (env p2_stuck) 3 0 (start offline) =
      (Done (Some (ioErr "pull failed")),
       after st3 [EvLoggerInfo "Failed to backup metadata plugin info"
                    "backup_builder" "failure"]).
Proof.
  apply (plugin_failure_aborts L3 (env p2_stuck) 3 0 (start offline) "{}"
           (mkAppSnapshot [s1] [plugin "p1"; plugin "p2"; plugin "p3"])
           [s1]
           (snd (backupServiceInfo L3 (env p2_stuck) 3 [s1]
                   (after (start offline)
                      [EvReadFile "/grdata/backup/g1/region_apps_metadata.json"
                         (inr "{}")])))
           [plugin "p1"] (plugin "p2") [plugin "p3"]
           (snd (backupPluginVersions L3 (env p2_stuck) [plugin "p1"]
                   (after (snd (backupServiceInfo L3 (env p2_stuck) 3 [s1]
                                  (after (start offline)
                                     [EvReadFile
                                        "/grdata/backup/g1/region_apps_metadata.json"
                                        (inr "{}")])))
                      [EvLoggerInfo "Start backup plugin" "backup_builder"
                         "starting"])))
           (ioErr "pull failed")).
  - reflexivity.
  - reflexivity.
  - reflexivity.
  - vm_compute. reflexivity.
  - vm_compute. reflexivity.
  - left. vm_compute. reflexivity.
Defined.


(** ** More properties of the worker *)

Lemma set_Versions_same app : set_Versions app (Versions app) = app.
Proof. destruct app. reflexivity. Qed.

(** *** Properties that every step keeps *)

Lemma invariant_ret {A} I (a : A) : invariant I (ret a).
Proof. intros st H. exact H. Qed.

Lemma invariant_get_b I : invariant I get_b.
Proof. intros st H. exact H. Qed.

Lemma invariant_bind {A B} I (m : M A) (k : A -> M B) :
  invariant I m -> (forall a, invariant I (k a)) -> invariant I (bind m k).
Proof.
  intros Hm Hk st H. unfold bind. specialize (Hm st H).
  destruct (m st) as [[a|msg] st1]; cbn [snd] in *.
  - apply Hk. exact Hm.
  - exact Hm.
Qed.

Lemma invariant_defer {A} I (d : M unit) (body : M A) :
  invariant I d -> invariant I body -> invariant I (defer d body).
Proof.
  intros Hd Hb st H. unfold defer. specialize (Hb st H).
  destruct (body st) as [[a|msg] st1]; cbn [snd] in *;
    specialize (Hd st1 Hb); destruct (d st1) as [[u|msg'] st2]; exact Hd.
Qed.

Lemma invariant_emit I ev :
  (forall st, I st -> I (after st [ev])) -> invariant I (emit ev).
Proof. intros Hev st H. apply (Hev st H). Qed.

Lemma invariant_call {R} I (oracle : History -> R) (ev : R -> Event) :
  (forall st r, I st -> I (after st [ev r])) -> invariant I (call oracle ev).
Proof. intros Hev st H. apply (Hev st _ H). Qed.

Lemma invariant_modify_b I f :
  (forall st, I st -> I (mkState (f (task st)) (trace st))) ->
  invariant I (modify_b f).
Proof. intros Hf st H. apply (Hf st H). Qed.

(** The calls that the loops of [backupServiceInfo] and [backupPluginInfo]
    make themselves; the others are made by [checkVersionExist],
    [uploadSlug] and [uploadImage]. *)
Definition loop_call (ev : Event) : bool :=
  match ev with
  | EvLoggerInfo _ _ _ | EvLoggerError _ _ _ | EvLogrusErrorf _ | EvLogrusInfof _
  | EvDirIsEmpty _ _ | EvZip _ _ _ | EvCheckAndCreateDir _
  | EvImagePull _ _ _ _ _ | EvImageSave _ _ _ => true
  | _ => false
  end.

(** Goes through a computation, leaving the calls to [step]. *)
Ltac keep step :=
  unfold_calls;
  repeat first
    [ apply invariant_ret | apply invariant_get_b
    | apply invariant_emit; solve [step]
    | apply invariant_call; solve [step]
    | apply invariant_modify_b; solve [step]
    | apply invariant_defer
    | apply invariant_bind; [|intros ?]
    | match goal with
      | |- invariant _ (match ?x with _ => _ end) => destruct x
      | |- invariant _ (let _ := _ in _) => cbv zeta
      end ].

Lemma opened_app h1 h2 : opened (h1 ++ h2) = opened h1 ++ opened h2.
Proof.
  induction h1 as [|ev h1 IH]; [reflexivity|].
  destruct ev; cbn; rewrite ?IH; try reflexivity.
  destruct r; cbn; rewrite ?IH; reflexivity.
Qed.

Lemma closed_app h1 h2 : closed (h1 ++ h2) = closed h1 ++ closed h2.
Proof.
  induction h1 as [|ev h1 IH]; [reflexivity|].
  destruct ev; cbn; rewrite ?IH; reflexivity.
Qed.

Section More.

Variable lib : Lib.
Variable env : Env.
Variable cap : Z.

(** *** The existence check *)

(** The check answers "there" only without an error and only for the kinds
    image and slug; for any other kind it makes no call and answers "not
    there" with the error "delivered type is invalid". *)
Theorem checkVersionExist_answer v st :
  exists ok e st',
    checkVersionExist lib env v st = (Done (ok, e), st') /\
    (ok = true ->
     e = None /\ (DeliveredType v = "image" \/ DeliveredType v = "slug")) /\
    (DeliveredType v <> "image" -> DeliveredType v <> "slug" ->
     ok = false /\ e = Some (fmt_Errorf "delivered type is invalid") /\ st' = st).
Proof.
  unfold checkVersionExist.
  destruct (String.eqb_spec (DeliveredType v) "image") as [Hi|Hi].
  - step.
    destruct (registry_NewInsecure env (trace st) _ "" "") as [err|reg].
    + do 3 eexists. split; [reflexivity|]. split; [discriminate|]. congruence.
    + cbn [task trace].
      destruct (reg_Manifest env _ reg _ _) as [err|];
        do 3 eexists; (split; [reflexivity|]); split;
        try discriminate; try congruence; auto.
  - destruct (String.eqb_spec (DeliveredType v) "slug") as [Hs|Hs].
    + step. destruct (os_Stat env (trace st) _) as [err|info].
      * destruct (os_IsNotExist err);
          do 3 eexists; (split; [reflexivity|]); split;
          try discriminate; congruence.
      * destruct (IsDir info);
          do 3 eexists; (split; [reflexivity|]); split;
          try discriminate; try congruence; auto.
    + do 3 eexists. split; [reflexivity|]. split; [discriminate|]. auto.
Qed.

(** A slug is found exactly when stat succeeds on its path and the path is
    not a directory; an image is found exactly when a registry client can
    be built for its host and the manifest fetch gives no error. *)
Theorem found_exactly v st :
  (DeliveredType v = "slug" ->
   (found lib env v st = true <->
    exists info,
      os_Stat env (trace st) (DeliveredPath v) = inr info /\ IsDir info = false))
  /\
  (DeliveredType v = "image" ->
   (found lib env v st = true <->
    exists reg,
      registry_NewInsecure env (trace st)
        (Host (sources_ImageNameHandle lib (DeliveredPath v))) "" "" = inr reg /\
      reg_Manifest env
        (trace st ++
         [EvNewInsecure (Host (sources_ImageNameHandle lib (DeliveredPath v)))
            "" "" (inr reg)])
        reg (Name (sources_ImageNameHandle lib (DeliveredPath v)))
        (Tag (sources_ImageNameHandle lib (DeliveredPath v))) = None)).
Proof.
  split; intros Hk; unfold found, checkVersionExist; rewrite Hk; eval_eqb; step.
  - destruct (os_Stat env (trace st) (DeliveredPath v)) as [err|info].
    + destruct (os_IsNotExist err); cbn [fst]; split;
        [discriminate|intros [i [H _]]; discriminate
        |discriminate|intros [i [H _]]; discriminate].
    + destruct (IsDir info) eqn:Hd; cbn [fst]; split.
      * discriminate.
      * intros [i [H Hi]]. inversion H. subst. congruence.
      * intros _. exists info. auto.
      * reflexivity.
  - destruct (registry_NewInsecure env (trace st) _ "" "") as [err|reg].
    + cbn [fst]. split; [discriminate|intros [r [H _]]; discriminate].
    + cbn [task trace].
      destruct (reg_Manifest env _ reg _ _) as [err|] eqn:Hm; cbn [fst]; split.
      * discriminate.
      * intros [r [H Hr]]. inversion H. subst. congruence.
      * intros _. exists reg. auto.
      * reflexivity.
Qed.

(** *** Versions the loop passes over *)

Lemma backupVersion_passed_over app v n st :
  passed_over v -> backupVersion lib env app v n st = (Done (n, v), st).
Proof.
  intros Hp. unfold backupVersion, backupSlugVersion, backupImageVersion.
  assert (Hs : (DeliveredType v == "slug") && (FinalStatus v == "success") = false).
  { destruct Hp as [Hp|[Hp _]].
    - destruct (String.eqb_spec (FinalStatus v) "success"); [contradiction|].
      apply andb_false_r.
    - destruct (String.eqb_spec (DeliveredType v) "slug"); [contradiction|].
      reflexivity. }
  assert (Hi : (DeliveredType v == "image") && (FinalStatus v == "success") = false).
  { destruct Hp as [Hp|[_ Hp]].
    - destruct (String.eqb_spec (FinalStatus v) "success"); [contradiction|].
      apply andb_false_r.
    - destruct (String.eqb_spec (DeliveredType v) "image"); [contradiction|].
      reflexivity. }
  rewrite Hs. unfold bind, ret. cbv beta iota. rewrite Hi. reflexivity.
Qed.

Lemma backupVersions_passed_over app vs n st :
  Forall passed_over vs ->
  backupVersions lib env cap app vs n st = (Done (n, vs), st).
Proof.
  intros Hall. revert n st. induction Hall as [|v rest Hv Hrest IH]; intros n st.
  - reflexivity.
  - destruct (Z_lt_le_dec n cap) as [Hlt|Hge].
    + rewrite backupVersions_cons by exact Hlt.
      rewrite backupVersion_passed_over by exact Hv.
      rewrite IH. reflexivity.
    + apply backupVersions_break. exact Hge.
Qed.

(** A service none of whose versions is a slug or an image with status
    success (in particular a service without versions) makes
    [backupServiceInfo] fail with the error of line 255: two log lines are
    written, nothing is looked for or transferred, and the services after
    it are not reached. *)
Theorem service_without_successful_version app rest st :
  Forall passed_over (Versions app) ->
  backupServiceInfo lib env cap (app :: rest) st =
    (Done (Some (fmt_Errorf ("Application(" +++ ServiceAlias (Service app) +++
                             ") Backup build version failure")),
           app :: rest),
     after st [EvLoggerInfo ("Start backup Application(" +++
                             ServiceAlias (Service app) +++ ") runtime")
                 "backup_builder" "starting";
               EvLoggerError ("Application(" +++ ServiceAlias (Service app) +++
                              ") Backup build version failure.")
                 "backup_builder" "success"]).
Proof.
  intros Hall. cbn [backupServiceInfo]. unfold backupRuntime.
  unfold bind at 1. unfold bind at 1. unfold Logger_Info at 1, emit at 1.
  unfold bind at 1.
  rewrite (backupVersions_passed_over app (Versions app) 0 _ Hall).
  cbn [Z.eqb]. crunch. rewrite set_Versions_same.
  unfold after. cbn [task trace]. rewrite <- app_assoc. reflexivity.
Qed.

(** *** What the loop does to the versions *)

Lemma backupSlugVersion_version app v n st :
  exists n1 v' c st1,
    backupSlugVersion lib env app v n st = (Done (n1, v', c), st1) /\
    ((v' = v /\ c = false) \/
     (FinalStatus v = "success" /\ v' = set_FinalStatus v "lost" /\ c = true)).
Proof.
  unfold backupSlugVersion.
  destruct (String.eqb_spec (DeliveredType v) "slug") as [Hk|Hk];
    [|crunch; eauto 10].
  destruct (String.eqb_spec (FinalStatus v) "success") as [Hs|Hs];
    cbn [andb]; [|crunch; eauto 10].
  destruct (checkVersionExist_total lib env v st) as [[ok e] [st1 Hc]].
  unfold bind at 1. rewrite Hc.
  destruct ok; cbn [negb]; [|unfold ret; eauto 10].
  destruct (uploadSlug_total lib env app v st1) as [[err|] [st2 Hu]];
    unfold bind at 1; rewrite Hu; crunch; eauto 10.
Qed.

Lemma backupImageVersion_version app v n st :
  exists n1 v' st1,
    backupImageVersion lib env app v n st = (Done (n1, v'), st1) /\
    (v' = v \/ (FinalStatus v = "success" /\ v' = set_FinalStatus v "lost")).
Proof.
  unfold backupImageVersion.
  destruct (String.eqb_spec (DeliveredType v) "image") as [Hk|Hk];
    [|crunch; eauto 10].
  destruct (String.eqb_spec (FinalStatus v) "success") as [Hs|Hs];
    cbn [andb]; [|crunch; eauto 10].
  destruct (checkVersionExist_total lib env v st) as [[ok e] [st1 Hc]].
  unfold bind at 1. rewrite Hc.
  destruct ok; cbn [negb]; [|unfold ret; eauto 10].
  destruct (uploadImage_total lib env app v st1) as [[err|] [st2 Hu]];
    unfold bind at 1; rewrite Hu; crunch; eauto 10.
Qed.

Lemma backupVersion_version app v n st :
  exists n1 v' st1,
    backupVersion lib env app v n st = (Done (n1, v'), st1) /\
    (v' = v \/ (FinalStatus v = "success" /\ v' = set_FinalStatus v "lost")).
Proof.
  unfold backupVersion.
  destruct (backupSlugVersion_version app v n st)
    as [n1 [v1 [c [st1 [Hs Hv]]]]].
  unfold bind. rewrite Hs.
  destruct Hv as [[-> ->]|[Hst [-> ->]]].
  - apply backupImageVersion_version.
  - unfold ret. eauto 10.
Qed.

(** The loop over the versions hands back as many versions as it got, in
    the same order; each is as it came, or had the status success and now
    has the status lost.  Build version, kind and path never change. *)
Theorem backupVersions_only_marks_lost app vs n st n' vs' st' :
  backupVersions lib env cap app vs n st = (Done (n', vs'), st') ->
  Forall2
    (fun v v' =>
       v' = v \/ (FinalStatus v = "success" /\ v' = set_FinalStatus v "lost"))
    vs vs'.
Proof.
  revert n st n' vs' st'. induction vs as [|v rest IH]; intros n st n' vs' st'.
  - cbn. unfold ret. intros H. inversion H. constructor.
  - destruct (Z_lt_le_dec n cap) as [Hlt|Hge].
    + rewrite backupVersions_cons by exact Hlt.
      destruct (backupVersion_version app v n st) as [n1 [v1 [st1 [Hb Hv]]]].
      rewrite Hb.
      destruct (backupVersions lib env cap app rest n1 st1)
        as [[[n2 rest']|msg] st2] eqn:Hrest; [|discriminate].
      cbn [omap]. intros H. inversion H. subst.
      constructor; [exact Hv|]. apply (IH _ _ _ _ _ Hrest).
    + rewrite backupVersions_break by exact Hge.
      intros H. inversion H. subst.
      clear. generalize (v :: rest). intros l.
      induction l as [|x l IHl]; constructor; auto.
Qed.

(** *** Transfers that fail *)

(** A transfer that returns an error leaves the task as it was: nothing is
    added to [BackupSize]. *)
Theorem failed_transfer_leaves_task app v st err st' :
  uploadSlug lib env app v st = (Done (Some err), st') \/
  uploadImage lib env app v st = (Done (Some err), st') ->
  task st' = task st.
Proof.
  intros [H|H]; revert H.
  - unfold uploadSlug. step.
    repeat (case_inner; cbv beta iota);
      intros H; try discriminate H; injection H as _ <-; reflexivity.
  - unfold uploadImage. step.
    destruct (IsTrust (ImageInfo (task st)));
      repeat (case_inner; cbv beta iota);
      intros H; try discriminate H; injection H as _ <-; reflexivity.
Qed.

(** *** From the leaves to the whole run *)

(** What the three leaf functions and the calls of the loops keep, the
    backup of the services and of the plugins keeps. *)
Lemma Run_backup_invariant (I : State -> Prop) metadata metaVersion :
  (forall st ev, loop_call ev = true -> I st -> I (after st [ev])) ->
  (forall v, invariant I (checkVersionExist lib env v)) ->
  (forall app v, invariant I (uploadSlug lib env app v)) ->
  (forall app v, invariant I (uploadImage lib env app v)) ->
  invariant I (Run_backup lib env cap metadata metaVersion).
Proof.
  intros Hstep Hc Hs Hi.
  assert (Hver : forall app v n, invariant I (backupVersion lib env app v n)).
  { intros app v n.
    unfold backupVersion, backupSlugVersion, backupImageVersion.
    repeat first
      [ apply Hc | apply Hs | apply Hi
      | apply invariant_ret
      | apply invariant_emit; intros; apply Hstep; [reflexivity|assumption]
      | apply invariant_bind; [|intros ?]
      | match goal with
        | |- invariant _ (logrus_Errorf _) => unfold logrus_Errorf
        | |- invariant _ (match ?x with _ => _ end) => destruct x
        end ]. }
  assert (Hvers : forall app vs n,
             invariant I (backupVersions lib env cap app vs n)).
  { intros app vs. induction vs as [|v rest IH]; intros n; cbn [backupVersions].
    - apply invariant_ret.
    - destruct (n >=? cap); [apply invariant_ret|].
      apply invariant_bind; [apply Hver|].
      intros [n1 v']. apply invariant_bind; [apply IH|].
      intros [n' rest']. apply invariant_ret. }
  assert (Hrun : forall app, invariant I (backupRuntime lib env cap app)).
  { intros app. unfold backupRuntime.
    apply invariant_bind;
      [keep ltac:(intros; apply Hstep; [reflexivity|assumption])|].
    intros _. apply invariant_bind; [apply Hvers|].
    intros [n vs'].
    keep ltac:(intros; apply Hstep; [reflexivity|assumption]). }
  assert (Hvols : forall app volumes,
             invariant I (backupVolumes env app volumes)).
  { intros app volumes. induction volumes as [|volume rest IH];
      cbn [backupVolumes].
    - apply invariant_ret.
    - apply invariant_bind;
        [unfold backupVolume;
         keep ltac:(intros; apply Hstep; [reflexivity|assumption])|].
      intros [err|]; [apply invariant_ret|apply IH]. }
  assert (Hdata : forall app, invariant I (backupData lib env app)).
  { intros app. unfold backupData.
    apply invariant_bind;
      [keep ltac:(intros; apply Hstep; [reflexivity|assumption])|].
    intros _. apply invariant_bind;
      [unfold backupAllData;
       keep ltac:(intros; apply Hstep; [reflexivity|assumption])|].
    intros [err|]; [apply invariant_ret|].
    apply invariant_bind; [apply Hvols|].
    intros [err|]; keep ltac:(intros; apply Hstep; [reflexivity|assumption]). }
  assert (Hsvc : forall serviceInfos,
             invariant I (backupServiceInfo lib env cap serviceInfos)).
  { intros serviceInfos. induction serviceInfos as [|app rest IH];
      cbn [backupServiceInfo].
    - apply invariant_ret.
    - apply invariant_bind; [apply Hrun|].
      intros [[err|] app']; [apply invariant_ret|].
      apply invariant_bind; [apply Hdata|].
      intros [err|]; [apply invariant_ret|].
      apply invariant_bind; [apply IH|].
      intros [r rest']. apply invariant_ret. }
  assert (Hpvs : forall pvs, invariant I (backupPluginVersions lib env pvs)).
  { intros pvs. induction pvs as [|pv rest IH]; cbn [backupPluginVersions].
    - apply invariant_ret.
    - apply invariant_bind;
        [unfold backupPluginVersion;
         keep ltac:(intros; apply Hstep; [reflexivity|assumption])|].
      intros [err|]; [apply invariant_ret|apply IH]. }
  unfold Run_backup, backupPluginInfo.
  repeat first
    [ apply Hsvc | apply Hpvs
    | apply invariant_ret
    | apply invariant_emit; intros; apply Hstep; [reflexivity|assumption]
    | apply invariant_bind; [|intros ?]
    | match goal with
      | |- invariant _ (Logger_Info _ _ _) => unfold Logger_Info
      | |- invariant _ (match ?x with _ => _ end) => destruct x
      end ].
Qed.

(** And so does [Run], if reading the metadata, the change of the source
    directory and the last part of [Run] keep it too. *)
Lemma Run_invariant (I : State -> Prop) timeout :
  (forall st ev, loop_call ev = true -> I st -> I (after st [ev])) ->
  (forall st path r, I st -> I (after st [EvReadFile path r])) ->
  (forall st s, I st -> I (mkState (set_SourceDir (task st) s) (trace st))) ->
  (forall v, invariant I (checkVersionExist lib env v)) ->
  (forall app v, invariant I (uploadSlug lib env app v)) ->
  (forall app v, invariant I (uploadImage lib env app v)) ->
  invariant I (Run_finish lib env) ->
  invariant I (Run lib env cap timeout).
Proof.
  intros Hstep Hread Hdir Hc Hs Hi Hfin.
  pose proof (fun md mv => Run_backup_invariant I md mv Hstep Hc Hs Hi) as Hb.
  unfold Run.
  apply invariant_bind; [apply invariant_get_b|]. intros b.
  apply invariant_bind; [apply invariant_call; intros; apply Hread; assumption|].
  intros [err|metadata]; [apply invariant_ret|].
  destruct (judgeMetadataVersion lib metadata) as [metaVersion [err|]].
  - apply invariant_bind; [|intros ?; apply invariant_ret].
    apply invariant_emit. intros. apply Hstep; [reflexivity|assumption].
  - apply invariant_bind; [apply Hb|].
    intros [err|]; [apply invariant_ret|].
    apply invariant_bind; [|intros _; exact Hfin].
    unfold Run_normalize.
    apply invariant_bind; [apply invariant_get_b|]. intros b'.
    destruct (strings_HasSuffix (SourceDir b') "/"); [|apply invariant_ret].
    destruct (slice_to _ _) as [s|].
    + apply invariant_modify_b. intros st H. apply Hdir. exact H.
    + intros st H. exact H.
Qed.

(** *** SFTP sessions *)

Definition balanced (st : State) : Prop :=
  opened (trace st) = closed (trace st).

Lemma balanced_step st ev :
  opened [ev] = [] -> closed [ev] = [] -> balanced st -> balanced (after st [ev]).
Proof.
  unfold balanced, after. cbn [trace]. intros Ho Hc H.
  rewrite opened_app, closed_app, Ho, Hc, !app_nil_r. exact H.
Qed.

Ltac balanced_neutral :=
  idtac;
  let st := fresh "st" in
  let r := fresh "r" in
  let H := fresh "H" in
  first
    [ intros st r H; apply balanced_step;
      [ try destruct r; reflexivity | try destruct r; reflexivity | exact H ]
    | intros st H; first [ exact H | apply balanced_step;
                                     [reflexivity | reflexivity | exact H] ] ].

Lemma uploadSlug_balanced app v : invariant balanced (uploadSlug lib env app v).
Proof.
  intros st H. unfold uploadSlug. step. unfold balanced in *.
  repeat (case_inner; cbv beta iota); cbn [snd trace];
    rewrite ?opened_app, ?closed_app; cbn [opened closed];
    rewrite ?app_nil_r, ?Heqs; cbn [opened]; rewrite ?app_nil_r;
    try (rewrite H; reflexivity); try exact H.
Qed.

Lemma checkVersionExist_balanced v :
  invariant balanced (checkVersionExist lib env v).
Proof. unfold checkVersionExist. keep balanced_neutral. Qed.

Lemma uploadImage_balanced app v :
  invariant balanced (uploadImage lib env app v).
Proof. unfold uploadImage. keep balanced_neutral. Qed.

Lemma Run_finish_balanced : invariant balanced (Run_finish lib env).
Proof.
  intros st H. unfold Run_finish, updateBackupStatu. step. unfold balanced in *.
  cbn [task trace BackupSize SourceDir SourceType Mode SlugInfo GroupID
       Version BackupID set_BackupSize set_SourceDir set_SourceType].
  repeat (case_inner; cbv beta iota); cbn [snd trace];
    rewrite ?opened_app, ?closed_app; cbn [opened closed];
    rewrite ?app_nil_r;
    repeat match goal with
           | E : sources_NewSFTPClient _ _ _ _ _ _ = _ |- _ => rewrite E
           end;
    cbn [opened]; rewrite ?app_nil_r;
    try (rewrite H; reflexivity); try exact H.
Qed.

(** Whatever way [Run] ends (result, error or panic), every SFTP session
    it opened has been closed, in the order of opening. *)
Theorem Run_closes_every_session timeout b :
  opened (trace (snd (Run lib env cap timeout (mkState b [])))) =
  closed (trace (snd (Run lib env cap timeout (mkState b [])))).
Proof.
  apply (Run_invariant balanced timeout).
  - intros st ev Hev H. apply balanced_step; [| |exact H];
      destruct ev; try discriminate Hev; reflexivity.
  - intros st path r H. apply balanced_step; [reflexivity|reflexivity|exact H].
  - intros st s H. exact H.
  - apply checkVersionExist_balanced.
  - apply uploadSlug_balanced.
  - apply uploadImage_balanced.
  - apply Run_finish_balanced.
  - reflexivity.
Qed.

(** *** The status record and the deletions *)

(** No status write and no deletion has happened so far. *)
Definition nothing_final (st : State) : Prop :=
  Forall (fun ev => final_call ev = false) (trace st).

Lemma nothing_final_step st ev :
  final_call ev = false -> nothing_final st -> nothing_final (after st [ev]).
Proof.
  unfold nothing_final, after. cbn [trace]. intros Hev H.
  apply Forall_app. split; [exact H|]. constructor; [exact Hev|constructor].
Qed.

Ltac nothing_final_neutral :=
  idtac;
  let st := fresh "st" in
  let r := fresh "r" in
  let H := fresh "H" in
  first
    [ intros st r H; apply nothing_final_step; [reflexivity | exact H]
    | intros st H; first [ exact H
                         | apply nothing_final_step; [reflexivity | exact H] ] ].

Lemma checkVersionExist_nothing_final v :
  invariant nothing_final (checkVersionExist lib env v).
Proof. unfold checkVersionExist. keep nothing_final_neutral. Qed.

Lemma uploadSlug_nothing_final app v :
  invariant nothing_final (uploadSlug lib env app v).
Proof. unfold uploadSlug. keep nothing_final_neutral. Qed.

Lemma uploadImage_nothing_final app v :
  invariant nothing_final (uploadImage lib env app v).
Proof. unfold uploadImage. keep nothing_final_neutral. Qed.

(** [Run] ends before its last part, or it ends as its last part does from
    a state reached without status write and without deletion. *)
Lemma Run_reaches_finish timeout b out :
  Run lib env cap timeout (mkState b []) = out ->
  nothing_final (snd out) \/
  exists st1, nothing_final st1 /\ out = Run_finish lib env st1.
Proof.
  assert (Hstep : forall st ev,
             loop_call ev = true -> nothing_final st ->
             nothing_final (after st [ev])).
  { intros st ev Hev H. apply nothing_final_step; [|exact H].
    destruct ev; try discriminate Hev; reflexivity. }
  assert (H0 : nothing_final (mkState b [])) by constructor.
  unfold Run, get_b, ReadFile. unfold bind at 1. unfold bind at 1.
  assert (H1 : nothing_final
                 (snd (call (fun h => ioutil_ReadFile env h
                                        (SourceDir b +++
                                         "/region_apps_metadata.json"))
                            (EvReadFile (SourceDir b +++
                                         "/region_apps_metadata.json"))
                            (mkState b [])))).
  { apply invariant_call; [|exact H0]. nothing_final_neutral. }
  unfold call in *. cbn [fst snd task trace] in *.
  destruct (ioutil_ReadFile env [] _) as [err|metadata];
    [intros <-; left; exact H1|].
  destruct (judgeMetadataVersion lib metadata) as [metaVersion [err|]].
  - intros <-. left. unfold bind, Logger_Info, emit, ret. cbn [snd].
    apply Hstep; [reflexivity|exact H1].
  - unfold bind at 1.
    pose proof (Run_backup_invariant nothing_final metadata metaVersion Hstep
                  checkVersionExist_nothing_final uploadSlug_nothing_final
                  uploadImage_nothing_final _ H1) as H2.
    destruct (Run_backup lib env cap metadata metaVersion _)
      as [[[err|]|msg] st2]; cbn [snd] in H2;
      [intros <-; left; exact H2| |intros <-; left; exact H2].
    unfold bind at 1. unfold Run_normalize, get_b, bind at 1.
    destruct (strings_HasSuffix (SourceDir (task st2)) "/").
    + destruct (slice_to _ _) as [s|].
      * unfold modify_b. intros <-. right.
        exists (mkState (set_SourceDir (task st2) s) (trace st2)).
        split; [exact H2|reflexivity].
      * intros <-. left. exact H2.
    + unfold ret. intros <-. right. exists st2. split; [exact H2|reflexivity].
Qed.

End More.
